(** * file_admin: the client-side synchronisation layer of the admin dashboard

    A shallow embedding of the TypeScript sources:
    - [lib/api.ts] (the axios wrapper [ApiClient] and [getImageUrl]),
    - [components/Games/GameForm.tsx] (the game mutation form),
    - [app/dashboard/games/page.tsx], [app/dashboard/users/page.tsx] and
      [app/dashboard/tags/page.tsx] (the list controllers),
    - [context/AuthContext.tsx] (the session store).

    JavaScript strings are modelled as [string]; [toLowerCase] and [trim]
    act on the ASCII range.  Asynchronous code is written in a small monad
    that threads the browser state (cookies, location), asks an arbitrary
    backend for the reply to each request, and emits the chronological
    list of observable events.  Where the sources keep several revisions of
    a file, the latest one is embedded; the revision of the form before it
    is kept as [GameFormEarlier]. *)

From Stdlib Require Import Ascii String List Bool Arith Lia.
From stdpp Require Import base option list strings gmap.

(** ** JavaScript string primitives *)

Module Js.

(** [s.startsWith(p)] *)
Fixpoint startsWith (s p : string) {struct p} : bool :=
  match p with
  | EmptyString => true
  | String c p' =>
      match s with
      | EmptyString => false
      | String d s' => if Ascii.eqb c d then startsWith s' p' else false
      end
  end.

(** [s.includes(t)]: [t] occurs in [s] at some position. *)
Fixpoint includes (s t : string) : bool :=
  startsWith s t ||
  match s with
  | EmptyString => false
  | String _ s' => includes s' t
  end.

(** One character of [toLowerCase], on the ASCII letters. *)
Definition lower_char (c : ascii) : ascii :=
  let n := nat_of_ascii c in
  if (65 <=? n) && (n <=? 90) then ascii_of_nat (n + 32) else c.

(** [s.toLowerCase()] *)
Fixpoint toLowerCase (s : string) : string :=
  match s with
  | EmptyString => EmptyString
  | String c s' => String (lower_char c) (toLowerCase s')
  end.

(** The white space removed by [trim], within ASCII. *)
Definition is_space (c : ascii) : bool :=
  let n := nat_of_ascii c in
  (n =? 32) || ((9 <=? n) && (n <=? 13)).

Fixpoint trimStart (s : string) : string :=
  match s with
  | EmptyString => EmptyString
  | String c s' => if is_space c then trimStart s' else s
  end.

Fixpoint trimEnd (s : string) : string :=
  match s with
  | EmptyString => EmptyString
  | String c s' =>
      match trimEnd s' with
      | EmptyString => if is_space c then EmptyString else String c EmptyString
      | t => String c t
      end
  end.

(** [s.trim()] *)
Definition trim (s : string) : string := trimEnd (trimStart s).

(** Truthiness of a string: every string but the empty one. *)
Definition truthy (s : string) : bool :=
  match s with
  | EmptyString => false
  | String _ _ => true
  end.

(** Truthiness of a value that is a string or [undefined]. *)
Definition truthy_opt (o : option string) : bool :=
  match o with
  | Some s => truthy s
  | None => false
  end.

(** [a || b] on values that are a string or [undefined]. *)
Definition or_else (a b : option string) : option string :=
  if truthy_opt a then a else b.

(** [s.replace(/\/$/, "")]: the pattern matches one slash at the very end
    of the input, so at most the last character is removed. *)
Fixpoint stripTrailingSlash (s : string) : string :=
  match s with
  | EmptyString => EmptyString
  | String c EmptyString => if Ascii.eqb c "/"%char then EmptyString else s
  | String c s' => String c (stripTrailingSlash s')
  end.

End Js.

(** ** lib/api.ts: configuration and image reference resolution *)

(** [process.env.NEXT_PUBLIC_API_BASE_URL || "http://192.168.1.154:9000/"];
    the argument is the value of the environment variable. *)
Definition API_BASE_URL (env : option string) : string :=
  match Js.or_else env (Some "http://192.168.1.154:9000/") with
  | Some s => s
  | None => "http://192.168.1.154:9000/"
  end.

Definition getImageUrl (env : option string) (imagePath : string) : string :=
  if negb (Js.truthy imagePath) then ""
  else if Js.startsWith imagePath "http://" || Js.startsWith imagePath "https://"
  then imagePath
  else if Js.startsWith imagePath "/"
  then Js.stripTrailingSlash (API_BASE_URL env) +:+ imagePath
  else Js.stripTrailingSlash (API_BASE_URL env) +:+ "/uploads/" +:+ imagePath.

(** ** lib/types.ts: the records exchanged with the backend *)

Module File.
(** The part of a browser [File] that the form inspects. *)
Record t := mk { name : string; type : string; size : nat }.
End File.

Module AdditionalTag.
(** [id] is the field that [getAdditionalTags] adds. *)
Record t := mk {
  _id : string;
  id : option string;
  name : string;
  belongsTo : option string;
  createdAt : option string
}.
End AdditionalTag.

(** An entry of [additionalTags] as it is met at run time: the declared
    [string | AdditionalTag], and the [null] and [undefined] that the
    code filters out. *)
Inductive TagRef :=
| TagNull
| TagUndefined
| TagId (id : string)
| TagObject (tag : AdditionalTag.t).

Module MainTag.
(** ["Game" | "Software"] *)
Inductive t := Game | Software.
End MainTag.

Module Game.
(** [id] is the field that [getGames] adds; [additionalTags] may be absent
    on the wire, which is what [game.additionalTags || []] caters for. *)
Record t := mk {
  _id : string;
  id : option string;
  title : string;
  description : string;
  path : string;
  imageUrl : string;
  mainTag : MainTag.t;
  additionalTags : option (list TagRef);
  youtubeLink : option string;
  gameImages : option (list string)
}.
End Game.

Module User.
Record t := mk {
  _id : string;
  id : option string;
  username : option string;
  email : option string;
  isSubscribed : bool
}.
End User.

Module FormData.
(** The draft held by the game form; it is also the shape of the body of
    the create and update requests. *)
Record t := mk {
  title : string;
  description : string;
  path : string;
  imageUrl : string;
  mainTag : MainTag.t;
  additionalTags : list TagRef;
  youtubeLink : string;
  gameImages : list string
}.
End FormData.

(** [tag !== null && tag !== undefined] *)
Definition notNullish (tag : TagRef) : bool :=
  match tag with
  | TagNull | TagUndefined => false
  | TagId _ | TagObject _ => true
  end.

(** [xs || []] on a value that is an array or absent. *)
Definition orEmpty {A} (xs : option (list A)) : list A :=
  match xs with
  | Some l => l
  | None => []
  end.

(** ** The wire: requests, replies, and what a list endpoint may answer *)

(** The answer of a list endpoint: a bare array, or the envelope
    [ApiResponse<T>] = [{success, data, message?}]. *)
Inductive ListResponse (A : Type) :=
| Bare (items : list A)
| Envelope (success : bool) (data : option (list A)).
Arguments Bare {A} items.
Arguments Envelope {A} success data.

Record LoginResponse := { login_success : bool; login_token : option string }.
Record UploadResponse := { upload_success : bool; upload_url : option string }.

(** One constructor per call that [ApiClient] makes on its axios instance,
    holding what the call puts in the request body. *)
Inductive request :=
| PostLogin (endpoint username password : string)
| GetGames
| PostGame (gameData : FormData.t)
| PutGame (id : option string) (gameData : FormData.t)
| GetAdditionalTags
| PostAdditionalTag (name : string)
| DeleteAdditionalTag (id : string)
| GetUsers
| PutSetSubscription (id : string) (isSubscribed : bool)
| PostUploadPicture (file : File.t).

Inductive Method := GET | POST | PUT | DELETE.

Definition method (r : request) : Method :=
  match r with
  | PostLogin _ _ _ | PostGame _ | PostAdditionalTag _ | PostUploadPicture _ => POST
  | GetGames | GetAdditionalTags | GetUsers => GET
  | PutGame _ _ | PutSetSubscription _ _ => PUT
  | DeleteAdditionalTag _ => DELETE
  end.

Definition url (r : request) : string :=
  match r with
  | PostLogin endpoint _ _ => endpoint
  | GetGames | PostGame _ | PutGame _ _ => "/admin/games/game"
  | GetAdditionalTags | PostAdditionalTag _ | DeleteAdditionalTag _ =>
      "/admin/games/additional_tags"
  | GetUsers => "/admin/user"
  | PutSetSubscription _ _ => "/admin/user/set_subscription"
  | PostUploadPicture _ => "/admin/games/upload/picture"
  end.

(** The keys of the object (or form) sent as the request body. *)
Definition body_keys (r : request) : list string :=
  match r with
  | PostLogin _ _ _ => ["username"; "password"]
  | GetGames | GetAdditionalTags | GetUsers => []
  | PostGame _ =>
      ["title"; "description"; "path"; "imageUrl"; "mainTag"; "additionalTags";
       "youtubeLink"; "gameImages"]
  | PutGame _ _ =>
      ["id"; "title"; "description"; "path"; "imageUrl"; "mainTag";
       "additionalTags"; "youtubeLink"; "gameImages"]
  | PostAdditionalTag _ => ["name"]
  | DeleteAdditionalTag _ => ["id"]
  | PutSetSubscription _ _ => ["id"; "isSubscribed"]
  | PostUploadPicture _ => ["image"]
  end.

(** The body of a create or update of a game. *)
Definition game_payload (r : request) : option FormData.t :=
  match r with
  | PostGame gameData | PutGame _ gameData => Some gameData
  | _ => None
  end.

(** The type of [response.data] for each request; the bodies that no caller
    inspects are kept as raw text. *)
Definition response_data (r : request) : Type :=
  match r with
  | PostLogin _ _ _ => LoginResponse
  | GetGames => ListResponse Game.t
  | GetAdditionalTags => ListResponse AdditionalTag.t
  | GetUsers => ListResponse User.t
  | PostUploadPicture _ => UploadResponse
  | PostGame _ | PutGame _ _ | PostAdditionalTag _ | DeleteAdditionalTag _
  | PutSetSubscription _ _ => string
  end.

(** What axios makes of the exchange: a response with a 2xx status resolves
    the promise; any other status, or no response at all (network error,
    timeout: [None]), rejects it. *)
Inductive reply (D : Type) :=
| Ok (data : D)
| Err (status : option nat).
Arguments Ok {D} data.
Arguments Err {D} status.

(** The backend is an external collaborator: any state machine answering
    each request, given the bearer header that came with it. *)
Class Backend := {
  ServerState : Type;
  backend_reply :
    forall r : request, option string -> ServerState ->
                        reply (response_data r) * ServerState
}.

(** ** Observable events *)

(** Calls that only touch the user interface: React state setters, toasts,
    console output and the callbacks handed to the form. *)
Inductive ui :=
| preventDefault
| setLoading (b : bool)
| setUploading (b : bool)
| setCreating (b : bool)
| setError (message : string)
| setGames (games : list Game.t)
| setTags (tags : list AdditionalTag.t)
| setNewTagName (s : string)
| setNewTagBelongsTo (s : string)
| setShowCreateForm (b : bool)
| toast_loading (message : string)
| toast_success (message : string)
| toast_error (message : string)
| console_log (message : string)
| console_error (message : string)
| onSave
| onClose.

Inductive event :=
| Sent (r : request) (authorization : option string)
| Received (r : request) (rep : reply (response_data r))
| Effect (u : ui).

(** ** The monad of asynchronous client code *)

Inductive JsError :=
| AxiosError (status : option nat)
| Error (message : string).

Inductive Outcome (A : Type) :=
| Resolved (a : A)
| Rejected (e : JsError).
Arguments Resolved {A} a.
Arguments Rejected {A} e.

Section Monad.
Context {backend : Backend}.

Record World := mkWorld {
  cookies : gmap string string;
  location_href : string;
  server : ServerState
}.

Definition M (A : Type) : Type := World -> Outcome A * World * list event.

Definition ret {A} (a : A) : M A := fun w => (Resolved a, w, []).

Definition throw {A} (e : JsError) : M A := fun w => (Rejected e, w, []).

Definition bind {A B} (m : M A) (k : A -> M B) : M B := fun w =>
  match m w with
  | (Resolved a, w1, t1) =>
      match k a w1 with
      | (o, w2, t2) => (o, w2, t1 ++ t2)
      end
  | (Rejected e, w1, t1) => (Rejected e, w1, t1)
  end.

(** [try { m } catch (e) { h e }] *)
Definition try_catch {A} (m : M A) (h : JsError -> M A) : M A := fun w =>
  match m w with
  | (Resolved a, w1, t1) => (Resolved a, w1, t1)
  | (Rejected e, w1, t1) =>
      match h e w1 with
      | (o, w2, t2) => (o, w2, t1 ++ t2)
      end
  end.

(** [try { m } finally { f }] *)
Definition finally {A} (m : M A) (f : M unit) : M A := fun w =>
  match m w with
  | (o, w1, t1) =>
      match f w1 with
      | (Resolved _, w2, t2) => (o, w2, t1 ++ t2)
      | (Rejected e, w2, t2) => (Rejected e, w2, t1 ++ t2)
      end
  end.

Definition emit (u : ui) : M unit := fun w => (Resolved tt, w, [Effect u]).

(** [Promise.all([m1, m2])]: both calls are started, in this order; the
    result rejects when one of them does. *)
Definition Promise_all2 {A B} (m1 : M A) (m2 : M B) : M (A * B) := fun w =>
  match m1 w with
  | (o1, w1, t1) =>
      match m2 w1 with
      | (o2, w2, t2) =>
          (match o1, o2 with
           | Resolved a, Resolved b => Resolved (a, b)
           | Rejected e, _ => Rejected e
           | _, Rejected e => Rejected e
           end, w2, t1 ++ t2)
      end
  end.
End Monad.

Declare Scope client_scope.
Delimit Scope client_scope with client.
Notation "x <- y ;; z" := (bind y (fun x => z))
  (at level 20, y at level 99, z at level 200, only parsing) : client_scope.
Notation "y ;; z" := (bind y (fun _ => z))
  (at level 100, z at level 200, only parsing, right associativity) : client_scope.

(** ** lib/api.ts: the axios wrapper *)

Module ApiClient.
Section ApiClient.
Context {backend : Backend}.
Local Open Scope client_scope.

(** The request interceptor: the [Authorization] header, when the cookie
    [admin_token] holds a token. *)
Definition authorization (w : World) : option string :=
  let token := cookies w !! "admin_token" in
  if Js.truthy_opt token then (fun t => "Bearer " +:+ t) <$> token else None.

(** The error branch of the response interceptor, before it rejects:
    [if (error.response?.status === 401)] the cookie is removed and the
    browser is sent to the login route. *)
Definition on_response_error (status : option nat) (w : World) : World :=
  if decide (status = Some 401)
  then mkWorld (delete "admin_token" (cookies w)) "/login" (server w)
  else w.

(** [this.client.<method>(url, body)] with both interceptors applied. *)
Definition client (r : request) : M (response_data r) := fun w =>
  let auth := authorization w in
  match backend_reply r auth (server w) with
  | (rep, s') =>
      let w1 := mkWorld (cookies w) (location_href w) s' in
      match rep with
      | Ok data => (Resolved data, w1, [Sent r auth; Received r rep])
      | Err status =>
          (Rejected (AxiosError status), on_response_error status w1,
           [Sent r auth; Received r rep])
      end
  end.

Definition login_endpoints : list string :=
  ["/admin/auth/login"; "/admin/login"; "/auth/login"; "/adminAuth/login";
   "/userAuth/login"].

(** The body of [for (const endpoint of endpoints)]: the value returned
    from inside the [try], or [None] when the [catch] was taken. *)
Definition login_attempt (endpoint username password : string)
  : M (option LoginResponse) :=
  try_catch
    (emit (console_log ("Trying login endpoint: " +:+ endpoint)) ;;
     response <- client (PostLogin endpoint username password) ;;
     emit (console_log ("Success with endpoint: " +:+ endpoint)) ;;
     ret (Some response))
    (fun _ =>
       emit (console_log ("Failed with endpoint: " +:+ endpoint)) ;;
       ret None).

Fixpoint login_from (endpoints : list string) (username password : string)
  : M LoginResponse :=
  match endpoints with
  | [] => throw (Error "All login endpoints failed")
  | endpoint :: rest =>
      returned <- login_attempt endpoint username password ;;
      match returned with
      | Some data => ret data
      | None => login_from rest username password
      end
  end.

Definition login (username password : string) : M LoginResponse :=
  login_from login_endpoints username password.

(** [{...game, id: game._id || game.id,
      additionalTags: (game.additionalTags || []).filter(
        (tag) => tag !== null && tag !== undefined)}] *)
Definition withGameId (game : Game.t) : Game.t :=
  Game.mk (Game._id game)
          (Js.or_else (Some (Game._id game)) (Game.id game))
          (Game.title game) (Game.description game) (Game.path game)
          (Game.imageUrl game) (Game.mainTag game)
          (Some (List.filter notNullish (orEmpty (Game.additionalTags game))))
          (Game.youtubeLink game) (Game.gameImages game).

Definition getGames : M (ListResponse Game.t) :=
  games <- client GetGames ;;
  match games with
  | Bare items => ret (Bare (List.map withGameId items))
  | Envelope _ _ => ret games
  end.

Definition createGame (gameData : FormData.t) : M string :=
  client (PostGame gameData).

Definition updateGame (id : option string) (gameData : FormData.t) : M string :=
  client (PutGame id gameData).

(** [{...tag, id: tag._id || tag.id}] *)
Definition withTagId (tag : AdditionalTag.t) : AdditionalTag.t :=
  AdditionalTag.mk (AdditionalTag._id tag)
                   (Js.or_else (Some (AdditionalTag._id tag)) (AdditionalTag.id tag))
                   (AdditionalTag.name tag) (AdditionalTag.belongsTo tag)
                   (AdditionalTag.createdAt tag).

Definition getAdditionalTags : M (ListResponse AdditionalTag.t) :=
  tags <- client GetAdditionalTags ;;
  match tags with
  | Bare items => ret (Bare (List.map withTagId items))
  | Envelope _ _ => ret tags
  end.

(** [async createAdditionalTag(name: string)]: the body is [{name}]. *)
Definition createAdditionalTag (name : string) : M string :=
  client (PostAdditionalTag name).

Definition deleteAdditionalTag (id : string) : M string :=
  client (DeleteAdditionalTag id).

(** [{...user, id: user._id || user.id}] *)
Definition withUserId (user : User.t) : User.t :=
  User.mk (User._id user)
          (Js.or_else (Some (User._id user)) (User.id user))
          (User.username user) (User.email user) (User.isSubscribed user).

Definition getUsers : M (ListResponse User.t) :=
  users <- client GetUsers ;;
  match users with
  | Bare items => ret (Bare (List.map withUserId items))
  | Envelope _ _ => ret users
  end.

Definition setSubscription (userId : string) (isSubscribed : bool) : M string :=
  emit (console_log "Sending subscription request:") ;;
  client (PutSetSubscription userId isSubscribed).

Definition uploadImage (file : File.t) : M UploadResponse :=
  client (PostUploadPicture file).

(** The [ApiClient] method that issues request [r], its result dropped
    (for a login route: one round of the loop of [login]). *)
Definition operation (r : request) : M unit :=
  match r with
  | PostLogin endpoint username password =>
      login_attempt endpoint username password ;; ret tt
  | GetGames => getGames ;; ret tt
  | PostGame gameData => createGame gameData ;; ret tt
  | PutGame id gameData => updateGame id gameData ;; ret tt
  | GetAdditionalTags => getAdditionalTags ;; ret tt
  | PostAdditionalTag name => createAdditionalTag name ;; ret tt
  | DeleteAdditionalTag id => deleteAdditionalTag id ;; ret tt
  | GetUsers => getUsers ;; ret tt
  | PutSetSubscription id isSubscribed => setSubscription id isSubscribed ;; ret tt
  | PostUploadPicture file => uploadImage file ;; ret tt
  end.

End ApiClient.
End ApiClient.

(** A call [f(a, b)] of a function declared with one parameter: JavaScript
    binds the first argument and drops the other. *)
Definition call_with_extra_argument {A B C} (f : A -> C) (a : A) (extra : B) : C :=
  f a.

(** [Array.isArray(response) ? response : response.data || []], the unwrapping
    that every list controller applies to what [ApiClient] returned. *)
Definition unwrapList {A} (response : ListResponse A) : list A :=
  match response with
  | Bare items => items
  | Envelope _ data => orEmpty data
  end.

(** ** context/AuthContext.tsx: the session store *)

Module AuthContext.
Section AuthContext.
Context {backend : Backend}.

(** [isAuthenticated] once the mount effect has run: the initial [false],
    set to [true] when [Cookies.get("admin_token")] is truthy. *)
Definition isAuthenticated_on_mount (w : World) : bool :=
  Js.truthy_opt (cookies w !! "admin_token").

(** [logout]: the cookie is removed ([isAuthenticated] becomes [false]). *)
Definition logout (w : World) : World :=
  mkWorld (delete "admin_token" (cookies w)) (location_href w) (server w).

(** [Cookies.set(name, value, {expires: 7})]; the expiry is not part of
    the model, which has no clock. *)
Definition Cookies_set (name value : string) : M unit := fun w =>
  (Resolved tt, mkWorld (<[name := value]> (cookies w)) (location_href w) (server w),
   []).

(** [login] of the provider; the result is what the promise resolves to,
    and [true] goes with [setIsAuthenticated(true)]. *)
Definition login (username password : string) : M bool :=
  try_catch
    (bind (ApiClient.login username password) (fun response =>
       if login_success response || Js.truthy_opt (login_token response)
       then
         let token :=
           default "authenticated"
                   (Js.or_else (login_token response) (Some "authenticated")) in
         bind (Cookies_set "admin_token" token) (fun _ => ret true)
       else ret false))
    (fun _ => bind (emit (console_error "Login failed:")) (fun _ => ret false)).

(** The session has ended: no token is persisted, the browser is at the
    login route, and the session store comes up unauthenticated there. *)
Definition session_ended (w : World) : Prop :=
  cookies w !! "admin_token" = None
  /\ location_href w = "/login"
  /\ isAuthenticated_on_mount w = false.

End AuthContext.
End AuthContext.

(** ** components/Games/GameForm.tsx: the game mutation form *)

Module GameForm.

(** The state cells of the component. *)
Record State := mkState {
  formData : FormData.t;
  availableTags : list AdditionalTag.t;
  loading : bool;
  uploading : bool;
  error : string;
  selectedFile : option File.t;
  previewUrl : string
}.

(** [{...prev, additionalTags}] *)
Definition withAdditionalTags (prev : FormData.t) (additionalTags : list TagRef)
  : FormData.t :=
  FormData.mk (FormData.title prev) (FormData.description prev)
              (FormData.path prev) (FormData.imageUrl prev)
              (FormData.mainTag prev) additionalTags
              (FormData.youtubeLink prev) (FormData.gameImages prev).

(** [{...formData, imageUrl, additionalTags}] *)
Definition withImageAndTags (prev : FormData.t) (imageUrl : string)
           (additionalTags : list TagRef) : FormData.t :=
  FormData.mk (FormData.title prev) (FormData.description prev)
              (FormData.path prev) imageUrl
              (FormData.mainTag prev) additionalTags
              (FormData.youtubeLink prev) (FormData.gameImages prev).

Definition setFormData (st : State) (f : FormData.t -> FormData.t) : State :=
  mkState (f (formData st)) (availableTags st) (loading st) (uploading st)
          (error st) (selectedFile st) (previewUrl st).

(** [validTagIds.includes(id)]: only a string can be equal to one of the
    ids. *)
Definition includesId (validTagIds : list string) (id : TagRef) : bool :=
  match id with
  | TagId s => existsb (String.eqb s) validTagIds
  | TagNull | TagUndefined | TagObject _ => false
  end.

(** The effect that runs when [availableTags] or [game] change: "clean up
    invalid tag IDs when availableTags change, but preserve existing tags
    when editing".  [game] is [None] for [null] or [undefined]. *)
Definition pruneTagsEffect (game : option Game.t) (st : State) : State :=
  if (0 <? length (availableTags st))
     && (0 <? length (FormData.additionalTags (formData st)))
  then
    let validTagIds := List.map AdditionalTag._id (availableTags st) in
    let validSelectedTags :=
      List.filter (includesId validTagIds) (FormData.additionalTags (formData st)) in
    let isEditingGame := match game with Some _ => true | None => false end in
    let hasInvalidTags :=
      negb (length validSelectedTags
            =? length (FormData.additionalTags (formData st))) in
    if negb isEditingGame && hasInvalidTags
    then setFormData st (fun prev => withAdditionalTags prev validSelectedTags)
    else st
  else st.

(** [typeof tag === "object" && tag._id ? tag._id : tag], applied to the
    entries that are neither [null] nor [undefined]. *)
Definition tagIdOf (tag : TagRef) : TagRef :=
  match tag with
  | TagObject t =>
      if Js.truthy (AdditionalTag._id t) then TagId (AdditionalTag._id t) else tag
  | _ => tag
  end.

(** The state cells after the effect that runs when [isOpen] or [game]
    change ([fetchTags()] is started by it as well, and the file input is
    cleared).  [None] stands for the [TypeError] of calling [filter] on an
    absent [additionalTags]. *)
Definition openEffect (env : option string) (isOpen : bool)
           (game : option Game.t) (st : State) : option State :=
  if isOpen then
    match game with
    | Some g =>
        match Game.additionalTags g with
        | Some tags =>
            let tagIds := List.map tagIdOf (List.filter notNullish tags) in
            Some (mkState
                    (FormData.mk (Game.title g) (Game.description g) (Game.path g)
                                 (Game.imageUrl g) (Game.mainTag g) tagIds
                                 (default "" (Js.or_else (Game.youtubeLink g) (Some "")))
                                 (orEmpty (Game.gameImages g)))
                    (availableTags st) (loading st) (uploading st) "" None
                    (getImageUrl env (Game.imageUrl g)))
        | None => None
        end
    | None =>
        Some (mkState (FormData.mk "" "" "" "" MainTag.Game [] "" [])
                      (availableTags st) (loading st) (uploading st) "" None "")
    end
  else
    Some (mkState (formData st) (availableTags st) (loading st) (uploading st)
                  "" None "").

(** [5 * 1024 * 1024] *)
Definition maxFileSize : N := (5 * 1024 * 1024)%N.

(** [handleFileSelect]: [file] is [e.target.files?.[0]], [objectUrl] the
    address that [URL.createObjectURL(file)] hands out.  The result is the
    state cells after the handler, and the toasts it raised. *)
Definition handleFileSelect (file : option File.t) (objectUrl : string)
           (st : State) : State * list ui :=
  match file with
  | None => (st, [])
  | Some f =>
      if negb (Js.startsWith (File.type f) "image/")
      then (mkState (formData st) (availableTags st) (loading st) (uploading st)
                    "Please select an image file" (selectedFile st) (previewUrl st),
            [toast_error "Please select an image file"])
      else if (maxFileSize <? N.of_nat (File.size f))%N
      then (mkState (formData st) (availableTags st) (loading st) (uploading st)
                    "File size must be less than 5MB" (selectedFile st)
                    (previewUrl st),
            [toast_error "File size must be less than 5MB"])
      else (mkState (formData st) (availableTags st) (loading st) (uploading st)
                    "" (Some f) objectUrl,
            [toast_success "Image selected successfully!"])
  end.

(** [additionalTags.includes(tagId)] *)
Definition includesTag (additionalTags : list TagRef) (tagId : string) : bool :=
  existsb (fun id => match id with
                     | TagId s => String.eqb s tagId
                     | _ => false
                     end) additionalTags.

(** [id !== tagId] *)
Definition isNot (tagId : string) (id : TagRef) : bool :=
  match id with
  | TagId s => negb (String.eqb s tagId)
  | _ => true
  end.

Definition quoted (s : string) : string :=
  String "034"%char (s +:+ String "034"%char "").

Definition handleTagToggle (tagId : string) (st : State) : State * list ui :=
  let tag := List.find (fun t => String.eqb (AdditionalTag._id t) tagId)
                       (availableTags st) in
  let isSelected := includesTag (FormData.additionalTags (formData st)) tagId in
  (setFormData st
     (fun prev =>
        withAdditionalTags prev
          (if isSelected
           then List.filter (isNot tagId) (FormData.additionalTags prev)
           else FormData.additionalTags prev ++ [TagId tagId])),
   match tag with
   | Some t =>
       if isSelected
       then [toast_success ("Removed " +:+ quoted (AdditionalTag.name t) +:+ " tag")]
       else [toast_success ("Added " +:+ quoted (AdditionalTag.name t) +:+ " tag")]
   | None => []
   end).

Definition isAllTagsSelected (st : State) : bool :=
  let allTagIds := List.map AdditionalTag._id (availableTags st) in
  if length allTagIds =? 0 then false
  else forallb (fun id => includesTag (FormData.additionalTags (formData st)) id)
               allTagIds.

Definition isIndeterminate (st : State) : bool :=
  let allTagIds := List.map AdditionalTag._id (availableTags st) in
  if length allTagIds =? 0 then false
  else
    let selectedAvailableTags :=
      List.filter (includesId allTagIds) (FormData.additionalTags (formData st)) in
    (0 <? length selectedAvailableTags)
    && (length selectedAvailableTags <? length allTagIds).

Definition handleSelectAllToggle (st : State) : State :=
  let allTagIds := List.map AdditionalTag._id (availableTags st) in
  let isAllSelected := isAllTagsSelected st in
  setFormData st
    (fun prev =>
       withAdditionalTags prev
         (if isAllSelected then [] else List.map TagId allTagIds)).

Section Handlers.
Context {backend : Backend}.
Local Open Scope client_scope.

Definition uploadImage (file : File.t) : M string :=
  emit (setUploading true) ;;
  finally
    (response <- ApiClient.uploadImage file ;;
     match upload_url response with
     | Some url =>
         if upload_success response && Js.truthy url
         then ret url
         else throw (Error "Upload failed")
     | None => throw (Error "Upload failed")
     end)
    (emit (setUploading false)).

Definition handleSubmit (game : option Game.t) (st : State) : M unit :=
  emit preventDefault ;;
  emit (setLoading true) ;;
  emit (setError "") ;;
  finally
    (try_catch
       (imageUrl <-
          match selectedFile st with
          | Some file =>
              emit (toast_loading "Uploading image...") ;;
              uploaded <- uploadImage file ;;
              emit (toast_success "Image uploaded successfully!") ;;
              ret uploaded
          | None => ret (FormData.imageUrl (formData st))
          end ;;
        let gameData :=
          withImageAndTags (formData st) imageUrl
            (List.filter notNullish (FormData.additionalTags (formData st))) in
        match game with
        | Some g =>
            ApiClient.updateGame
              (Js.or_else (Game.id g) (Some (Game._id g))) gameData ;;
            emit (toast_success "Game updated successfully!")
        | None =>
            ApiClient.createGame gameData ;;
            emit (toast_success "Game created successfully!")
        end ;;
        emit onSave ;;
        emit onClose)
       (fun _ =>
          emit (setError "Failed to save game. Please try again.") ;;
          emit (toast_error "Failed to save game. Please try again.") ;;
          emit (console_error "Error saving game:")))
    (emit (setLoading false)).

End Handlers.
End GameForm.

(** ** components/Games/GameForm.tsx, the revision without toasts *)

(** The earlier revision of the form that is kept with the sources: its
    draft has no [youtubeLink] and no [gameImages] yet (they stay at their
    defaults here and are not part of its requests), and it logs the
    payload instead of raising toasts. *)
Module GameFormEarlier.
Section Handlers.
Context {backend : Backend}.
Local Open Scope client_scope.

Definition uploadImage (file : File.t) : M string :=
  emit (setUploading true) ;;
  finally
    (response <- ApiClient.uploadImage file ;;
     match upload_url response with
     | Some url =>
         if upload_success response && Js.truthy url
         then ret url
         else throw (Error "Upload failed")
     | None => throw (Error "Upload failed")
     end)
    (emit (setUploading false)).

Definition handleSubmit (game : option Game.t) (st : GameForm.State) : M unit :=
  emit preventDefault ;;
  emit (setLoading true) ;;
  emit (setError "") ;;
  finally
    (try_catch
       (imageUrl <-
          match GameForm.selectedFile st with
          | Some file => uploadImage file
          | None => ret (FormData.imageUrl (GameForm.formData st))
          end ;;
        let gameData :=
          GameForm.withImageAndTags (GameForm.formData st) imageUrl
            (List.filter notNullish
               (FormData.additionalTags (GameForm.formData st))) in
        emit (console_log "Submitting game data:") ;;
        emit (console_log "Additional tags being sent:") ;;
        match game with
        | Some g =>
            ApiClient.updateGame
              (Js.or_else (Game.id g) (Some (Game._id g))) gameData ;;
            ret tt
        | None =>
            ApiClient.createGame gameData ;;
            ret tt
        end ;;
        emit onSave ;;
        emit onClose)
       (fun _ =>
          emit (setError "Failed to save game. Please try again.") ;;
          emit (console_error "Error saving game:")))
    (emit (setLoading false)).

End Handlers.
End GameFormEarlier.

(** ** app/dashboard/tags/page.tsx *)

Module TagsPage.

Definition filterTags (tags : list AdditionalTag.t) (searchTerm : string)
  : list AdditionalTag.t :=
  if Js.truthy searchTerm
  then List.filter
         (fun tag => Js.includes (Js.toLowerCase (AdditionalTag.name tag))
                                 (Js.toLowerCase searchTerm)) tags
  else tags.

(** The own names of [Object.prototype]: on the object [{}] that the
    grouping starts from, reading one of them yields an inherited value
    that is truthy and has no [push]. *)
Definition inherited_names : list string :=
  ["constructor"; "__defineGetter__"; "__defineSetter__"; "hasOwnProperty";
   "__lookupGetter__"; "__lookupSetter__"; "isPrototypeOf";
   "propertyIsEnumerable"; "toString"; "valueOf"; "__proto__"; "toLocaleString"].

(** [tag.belongsTo || "Unknown"] *)
Definition groupKey (tag : AdditionalTag.t) : string :=
  default "Unknown" (Js.or_else (AdditionalTag.belongsTo tag) (Some "Unknown")).

(** One step of the [reduce] that groups the visible tags; [None] stands
    for the [TypeError] of [acc[belongsTo].push] on an inherited value. *)
Definition groupStep (acc : option (gmap string (list AdditionalTag.t)))
           (tag : AdditionalTag.t) : option (gmap string (list AdditionalTag.t)) :=
  match acc with
  | None => None
  | Some groups =>
      let belongsTo := groupKey tag in
      if existsb (String.eqb belongsTo) inherited_names then None
      else
        let groups :=
          match groups !! belongsTo with
          | Some _ => groups
          | None => <[belongsTo := []]> groups
          end in
        Some (<[belongsTo := default [] (groups !! belongsTo) ++ [tag]]> groups)
  end.

(** [filteredTags.reduce((acc, tag) => ..., {})]; the order in which
    [Object.entries] lists the groups is not part of the model. *)
Definition groupTags (filteredTags : list AdditionalTag.t)
  : option (gmap string (list AdditionalTag.t)) :=
  fold_left groupStep filteredTags (Some ∅).

Section Handlers.
Context {backend : Backend}.
Local Open Scope client_scope.

Definition fetchTags : M unit :=
  finally
    (try_catch
       (response <- ApiClient.getAdditionalTags ;;
        let tagsData := unwrapList response in
        emit (setTags tagsData))
       (fun _ =>
          emit (console_error "Error fetching tags:") ;;
          emit (setError "Failed to fetch tags")))
    (emit (setLoading false)).

(** [newTagName] and [newTagBelongsTo] are the state cells bound to the
    two inputs of the creation form. *)
Definition handleCreateTag (newTagName newTagBelongsTo : string) : M unit :=
  emit preventDefault ;;
  if negb (Js.truthy (Js.trim newTagName)) then ret tt
  else
    emit (setCreating true) ;;
    emit (setError "") ;;
    finally
      (try_catch
         (call_with_extra_argument ApiClient.createAdditionalTag
            (Js.trim newTagName) newTagBelongsTo ;;
          emit (setNewTagName "") ;;
          emit (setNewTagBelongsTo "Game") ;;
          emit (setShowCreateForm false) ;;
          fetchTags)
         (fun _ =>
            emit (setError "Failed to create tag. Please try again.") ;;
            emit (console_error "Error creating tag:")))
      (emit (setCreating false)).

(** [confirmed] is the answer to [confirm(...)]; [deletingId] is the state
    cell of that name, and the result is its value after the handler:
    [setDeletingId(id)] is overwritten by the [setDeletingId(null)] of the
    [finally] block, which has no other effect. *)
Definition handleDeleteTag (confirmed : bool) (id : string)
           (deletingId : option string) : M (option string) :=
  if negb confirmed then ret deletingId
  else
    emit (setError "") ;;
    finally
      (try_catch
         (ApiClient.deleteAdditionalTag id ;;
          fetchTags)
         (fun _ =>
            emit (setError "Failed to delete tag. Please try again.") ;;
            emit (console_error "Error deleting tag:")))
      (ret tt) ;;
    ret None.

End Handlers.
End TagsPage.

(** ** app/dashboard/games/page.tsx *)

Module GamesPage.

(** ["all" | "Game" | "Software"] *)
Inductive SelectedMainTag := all | Game | Software.

(** [game.mainTag === selectedMainTag] *)
Definition mainTagIs (m : MainTag.t) (selectedMainTag : SelectedMainTag) : bool :=
  match m, selectedMainTag with
  | MainTag.Game, Game | MainTag.Software, Software => true
  | _, _ => false
  end.

Definition filterGames (games : list Game.t) (searchTerm : string)
           (selectedMainTag : SelectedMainTag) : list Game.t :=
  let filtered := games in
  let filtered :=
    if Js.truthy searchTerm
    then List.filter
           (fun game =>
              Js.includes (Js.toLowerCase (Game.title game))
                          (Js.toLowerCase searchTerm)
              || Js.includes (Js.toLowerCase (Game.description game))
                             (Js.toLowerCase searchTerm))
           filtered
    else filtered in
  let filtered :=
    match selectedMainTag with
    | all => filtered
    | _ => List.filter (fun game => mainTagIs (Game.mainTag game) selectedMainTag)
                       filtered
    end in
  filtered.

(** What a card shows of the tags: [game.additionalTags.length], when it
    is positive; [None] stands for the [TypeError] of reading [length] of
    an absent field. *)
Definition tagsBadge (game : Game.t) : option nat :=
  length <$> Game.additionalTags game.

Definition quotedTitle (gameTitle : string) : string :=
  String "034"%char (gameTitle +:+ String "034"%char "").

Section Handlers.
Context {backend : Backend}.
Local Open Scope client_scope.

Definition fetchData : M unit :=
  finally
    (try_catch
       (responses <-
          Promise_all2 ApiClient.getGames ApiClient.getAdditionalTags ;;
        let gamesData := unwrapList (fst responses) in
        let tagsData := unwrapList (snd responses) in
        emit (setGames gamesData) ;;
        emit (setTags tagsData))
       (fun _ =>
          emit (console_error "Error fetching data:") ;;
          emit (toast_error "Failed to fetch games data")))
    (emit (setLoading false)).

(** [apiClient.deleteGame] is not part of the revision of [lib/api.ts] at
    hand; it is a parameter here.  [confirmed] is the answer to
    [window.confirm(...)], [games] the state cell of that name. *)
Definition handleDeleteGame (deleteGame : string -> M string)
           (confirmed : bool) (games : list Game.t)
           (gameId gameTitle : string) : M unit :=
  if confirmed then
    try_catch
      (deleteGame gameId ;;
       emit (setGames
               (List.filter (fun game => negb (String.eqb (Game._id game) gameId))
                            games)) ;;
       emit (toast_success (quotedTitle gameTitle +:+ " deleted successfully!")))
      (fun _ =>
         emit (console_error "Error deleting game:") ;;
         emit (toast_error "Failed to delete game"))
  else ret tt.

End Handlers.
End GamesPage.

(** ** app/dashboard/users/page.tsx *)

Module UsersPage.

(** ["all" | "subscribed" | "unsubscribed"] *)
Inductive FilterSubscription := all | subscribed | unsubscribed.

(** [field && field.toLowerCase().includes(searchTerm.toLowerCase())] *)
Definition fieldIncludes (field : option string) (searchTerm : string) : bool :=
  match field with
  | Some s => Js.truthy s && Js.includes (Js.toLowerCase s) (Js.toLowerCase searchTerm)
  | None => false
  end.

Definition filterUsers (users : list User.t) (searchTerm : string)
           (filterSubscription : FilterSubscription) : list User.t :=
  let filtered := users in
  let filtered :=
    if Js.truthy searchTerm
    then List.filter
           (fun user =>
              fieldIncludes (User.username user) searchTerm
              || fieldIncludes (User.email user) searchTerm
              || Js.includes (Js.toLowerCase (User._id user))
                             (Js.toLowerCase searchTerm))
           filtered
    else filtered in
  let filtered :=
    match filterSubscription with
    | all => filtered
    | _ => List.filter
             (fun user =>
                match filterSubscription with
                | subscribed => User.isSubscribed user
                | _ => negb (User.isSubscribed user)
                end)
             filtered
    end in
  filtered.

(** The state cells that the handlers of the page write. *)
Record State := mkState {
  users : list User.t;
  loading : bool;
  updatingUserId : option string;
  error : string
}.

Section Handlers.
Context {backend : Backend}.
Local Open Scope client_scope.

(** The state cells after [fetchUsers]; neither block of the [try] can
    throw out of it, so that [setLoading(false)] of the [finally] block is
    the last update. *)
Definition fetchUsers (st : State) : M State :=
  st1 <- try_catch
           (response <- ApiClient.getUsers ;;
            let usersData := unwrapList response in
            ret (mkState usersData (loading st) (updatingUserId st) (error st)))
           (fun _ =>
              emit (console_error "Error fetching users:") ;;
              ret (mkState (users st) (loading st) (updatingUserId st)
                           "Failed to fetch users")) ;;
  ret (mkState (users st1) false (updatingUserId st1) (error st1)).

(** The state cells after [handleSubscriptionToggle]. *)
Definition handleSubscriptionToggle (userId : string) (currentStatus : bool)
           (st : State) : M State :=
  let st0 := mkState (users st) (loading st) (Some userId) "" in
  st1 <- try_catch
           (ApiClient.setSubscription userId (negb currentStatus) ;;
            fetchUsers st0)
           (fun _ =>
              emit (console_error "Error updating subscription:") ;;
              ret (mkState (users st0) (loading st0) (updatingUserId st0)
                           "Failed to update subscription. Please try again.")) ;;
  ret (mkState (users st1) (loading st1) None (error st1)).

End Handlers.
End UsersPage.

(** ** app/dashboard/page.tsx *)

Module DashboardPage.

Record DashboardStats := mkStats {
  totalGames : nat;
  totalTags : nat;
  totalUsers : nat;
  subscribedUsers : nat
}.

Record State := mkState { stats : DashboardStats; loading : bool }.

Section Handlers.
Context {backend : Backend}.
Local Open Scope client_scope.

(** [Promise.all([m1, m2, m3])] *)
Definition Promise_all3 {A B C} (m1 : M A) (m2 : M B) (m3 : M C) : M (A * B * C) :=
  fun w =>
    match m1 w with
    | (o1, w1, t1) =>
        match m2 w1 with
        | (o2, w2, t2) =>
            match m3 w2 with
            | (o3, w3, t3) =>
                (match o1, o2, o3 with
                 | Resolved a, Resolved b, Resolved c => Resolved (a, b, c)
                 | Rejected e, _, _ => Rejected e
                 | _, Rejected e, _ => Rejected e
                 | _, _, Rejected e => Rejected e
                 end, w3, t1 ++ t2 ++ t3)
            end
        end
    end.

(** The state cells after [fetchDashboardStats]. *)
Definition fetchDashboardStats (st : State) : M State :=
  st1 <- try_catch
           (responses <- Promise_all3 ApiClient.getGames ApiClient.getAdditionalTags
                                      ApiClient.getUsers ;;
            let games := unwrapList (fst (fst responses)) in
            let tags := unwrapList (snd (fst responses)) in
            let users := unwrapList (snd responses) in
            ret (mkState
                   (mkStats (length games) (length tags) (length users)
                            (length (List.filter (fun user => User.isSubscribed user)
                                                 users)))
                   (loading st)))
           (fun _ =>
              emit (console_error "Error fetching dashboard stats:") ;;
              ret st) ;;
  ret (mkState (stats st1) false).

End Handlers.
End DashboardPage.

(** ** The filtering rule in the words of the specification *)

(** [term] occurs in [text], case being ignored. *)
Definition ci_substring (text term : string) : Prop :=
  exists pre post,
    Js.toLowerCase text = pre +:+ Js.toLowerCase term +:+ post.

(** The visible collection: the records of the source collection, in its
    order, one of whose text fields contains the search term (case being
    ignored) and which belong to the selected category. *)
Definition recomputeVisible {A} (textFields : A -> list string)
           (inCategory : A -> bool) (C : list A) (searchTerm : string) : list A :=
  List.filter
    (fun record =>
       existsb (fun field => Js.includes (Js.toLowerCase field)
                                         (Js.toLowerCase searchTerm))
               (textFields record)
       && inCategory record)
    C.

Definition gameTextFields (game : Game.t) : list string :=
  [Game.title game; Game.description game].

Definition gameInCategory (selectedMainTag : GamesPage.SelectedMainTag)
           (game : Game.t) : bool :=
  match selectedMainTag with
  | GamesPage.all => true
  | _ => GamesPage.mainTagIs (Game.mainTag game) selectedMainTag
  end.

(** The text fields of a user that are present. *)
Definition userTextFields (user : User.t) : list string :=
  match User.username user with Some s => [s] | None => [] end
  ++ match User.email user with Some s => [s] | None => [] end
  ++ [User._id user].

Definition userInCategory (filterSubscription : UsersPage.FilterSubscription)
           (user : User.t) : bool :=
  match filterSubscription with
  | UsersPage.all => true
  | UsersPage.subscribed => User.isSubscribed user
  | UsersPage.unsubscribed => negb (User.isSubscribed user)
  end.


(** ** Reading a trace *)

(** The login attempts recorded in a trace: the endpoint and what came
    back. *)
Definition login_reply (e : event) : option (string * reply LoginResponse) :=
  match e with
  | Received r rep =>
      match r as r0 return reply (response_data r0) -> option (string * reply LoginResponse) with
      | PostLogin endpoint _ _ => fun rep0 => Some (endpoint, rep0)
      | _ => fun _ => None
      end rep
  | _ => None
  end.

Definition login_posted (e : event) : option string :=
  match e with
  | Sent (PostLogin endpoint _ _) _ => Some endpoint
  | _ => None
  end.

Definition failed {D} (rep : reply D) : Prop :=
  match rep with
  | Ok _ => False
  | Err _ => True
  end.

(** The requests issued in a trace, in order. *)
Definition sent_request (e : event) : option request :=
  match e with
  | Sent r _ => Some r
  | _ => None
  end.

(** The user-interface calls of a trace, in order. *)
Definition ui_call (e : event) : option ui :=
  match e with
  | Effect u => Some u
  | _ => None
  end.

Definition resolved {D} (rep : reply D) : bool :=
  match rep with
  | Ok _ => true
  | Err _ => false
  end.

(** The backend answered a create or update of a game with success. *)
Definition mutation_resolved (e : event) : bool :=
  match e with
  | Received r rep =>
      match game_payload r with
      | Some _ => resolved rep
      | None => false
      end
  | _ => false
  end.

(** The backend answered request [r0] with success. *)
Definition request_resolved (is_r0 : request -> bool) (e : event) : bool :=
  match e with
  | Received r rep => is_r0 r && resolved rep
  | _ => false
  end.

Definition outcome_of {A W T} (x : Outcome A * W * T) : Outcome A := fst (fst x).
Definition world_of {A W T} (x : Outcome A * W * T) : W := snd (fst x).
Definition trace_of {A W T} (x : Outcome A * W * T) : T := snd x.

(** ** Sample data and backends *)

Definition png : File.t := File.mk "new.png" "image/png" 2048.

Definition draft : FormData.t :=
  FormData.mk "Chess" "A board game" "/games/chess" "old.png" MainTag.Game
              [TagId "t1"; TagNull; TagId "t2"; TagUndefined] "" [].

Definition draft_state : GameForm.State :=
  GameForm.mkState draft [] false false "" (Some png) "blob:http://localhost:3000/1f0c".

Definition rpg : AdditionalTag.t :=
  AdditionalTag.mk "t1" (Some "t1") "RPG" (Some "Game") None.

(** A draft that selects the tag [t1] and a tag that no longer exists. *)
Definition stale_draft : FormData.t :=
  FormData.mk "Chess" "A board game" "/games/chess" "old.png" MainTag.Game
              [TagId "t1"; TagId "gone"] "" [].

(** The form with no tag loaded, and with the one tag [t1] loaded. *)
Definition stale_state_no_tags : GameForm.State :=
  GameForm.mkState stale_draft [] false false "" None "".

Definition stale_state : GameForm.State :=
  GameForm.mkState stale_draft [rpg] false false "" None "".

Definition sparse_game : Game.t :=
  Game.mk "g1" None "Chess" "A board game" "/games/chess" "old.png" MainTag.Game
          (Some [TagId "t1"; TagNull]) None None.

(** A backend that accepts every request; the list endpoints answer with a
    bare array, the upload with the stored address.  *)
Definition accepting_reply (r : request) : response_data r :=
  match r with
  | PostLogin _ _ _ => {| login_success := true; login_token := Some "tok" |}
  | GetGames => Bare [sparse_game]
  | GetAdditionalTags => Bare []
  | GetUsers => Bare []
  | PostUploadPicture _ =>
      {| upload_success := true; upload_url := Some "/uploads/new.png" |}
  | PostGame _ | PutGame _ _ | PostAdditionalTag _ | DeleteAdditionalTag _
  | PutSetSubscription _ _ => "{}"
  end.

Definition accepting_backend : Backend :=
  {| ServerState := unit;
     backend_reply := fun r _ s => (Ok (accepting_reply r), s) |}.

(** The same backend, wrapping the games in the envelope. *)
Definition enveloping_reply (r : request) : response_data r :=
  match r with
  | GetGames => Envelope true (Some [sparse_game])
  | r0 => accepting_reply r0
  end.

Definition enveloping_backend : Backend :=
  {| ServerState := unit;
     backend_reply := fun r _ s => (Ok (enveloping_reply r), s) |}.

(** A backend that answers 401 to everything. *)
Definition unauthorized_backend : Backend :=
  {| ServerState := unit;
     backend_reply := fun r _ s => (Err (Some 401), s) |}.

(** A backend that knows one login route only. *)
Definition single_route_backend : Backend :=
  {| ServerState := unit;
     backend_reply := fun r _ s =>
       (match r as r0 return reply (response_data r0) with
        | PostLogin endpoint _ _ =>
            if String.eqb endpoint "/auth/login"
            then Ok {| login_success := true; login_token := Some "tok" |}
            else Err (Some 404)
        | r0 => Ok (accepting_reply r0)
        end, s) |}.

(** A browser tab that holds a token, on a page of the dashboard. *)
Definition signed_in {backend : Backend} (s : ServerState) : World :=
  mkWorld {[ "admin_token" := "tok" ]} "/dashboard/games" s.

Definition on_accepting : @World accepting_backend := @signed_in accepting_backend tt.
Definition on_enveloping : @World enveloping_backend := @signed_in enveloping_backend tt.
Definition on_unauthorized : @World unauthorized_backend := @signed_in unauthorized_backend tt.
Definition on_single_route : @World single_route_backend := @signed_in single_route_backend tt.
(** ** Facts about the string primitives *)

Lemma startsWith_app (p r : string) : Js.startsWith (p +:+ r) p = true.
Proof.
  induction p as [|c p IH]; simpl; [reflexivity|].
  rewrite Ascii.eqb_refl. exact IH.
Qed.

Lemma startsWith_inv (s p : string) :
  Js.startsWith s p = true -> exists r, s = p +:+ r.
Proof.
  revert s. induction p as [|c p IH]; intros s H; simpl in *.
  - exists s. reflexivity.
  - destruct s as [|d s]; [discriminate|].
    destruct (Ascii.eqb c d) eqn:E; [|discriminate].
    apply Ascii.eqb_eq in E. subst d.
    destruct (IH _ H) as [r ->]. exists r. reflexivity.
Qed.

Lemma startsWith_iff (s p : string) :
  Js.startsWith s p = true <-> exists r, s = p +:+ r.
Proof.
  split; [apply startsWith_inv|]. intros [r ->]. apply startsWith_app.
Qed.

Lemma startsWith_nil (s : string) : Js.startsWith s "" = true.
Proof. destruct s; reflexivity. Qed.

Lemma stripTrailingSlash_slash (b : string) :
  Js.stripTrailingSlash (b +:+ "/") = b.
Proof.
  induction b as [|c b IH]; [reflexivity|].
  simpl. rewrite IH. destruct b; reflexivity.
Qed.

Lemma stripTrailingSlash_no_slash (b : string) (c : ascii) :
  c <> "/"%char ->
  Js.stripTrailingSlash (b +:+ String c "") = b +:+ String c "".
Proof.
  intros Hc. induction b as [|d b IH]; simpl.
  - destruct (Ascii.eqb c "/") eqn:E; [|reflexivity].
    apply Ascii.eqb_eq in E. contradiction.
  - rewrite IH. destruct b; reflexivity.
Qed.

(** ** Image reference resolution *)

(** C10: the empty path is resolved to the empty string, whatever the
    configured base URL is. *)
Theorem getImageUrl_empty (env : option string) : getImageUrl env "" = "".
Proof. reflexivity. Qed.

(** C1, as the code has it: an absolute URL ([http://] or [https://]) is
    returned unchanged; a path that starts with [/] is appended to the base
    URL stripped of its trailing slash; any other string that is not empty
    is resolved under [<base>/uploads/].  The three examples of the
    specification hold. *)
Theorem getImageUrl_resolution (env : option string) (p : string) :
  ((exists r, p = "http://" +:+ r) \/ (exists r, p = "https://" +:+ r) ->
   getImageUrl env p = p)
  /\ ((exists r, p = "/" +:+ r) ->
      getImageUrl env p = Js.stripTrailingSlash (API_BASE_URL env) +:+ p)
  /\ (p <> "" ->
      ~ (exists r, p = "http://" +:+ r) ->
      ~ (exists r, p = "https://" +:+ r) ->
      ~ (exists r, p = "/" +:+ r) ->
      getImageUrl env p
      = Js.stripTrailingSlash (API_BASE_URL env) +:+ "/uploads/" +:+ p)
  /\ getImageUrl env "https://x/y.png" = "https://x/y.png"
  /\ getImageUrl (Some "http://h:9000/") "/uploads/a.png"
     = "http://h:9000/uploads/a.png"
  /\ getImageUrl (Some "http://h:9000/") "a.png" = "http://h:9000/uploads/a.png".
Proof.
  repeat split; try reflexivity.
  - intros Habs. unfold getImageUrl.
    assert (Hp : Js.startsWith p "http://" || Js.startsWith p "https://" = true).
    { apply orb_true_iff.
      destruct Habs as [H|H]; [left|right]; apply startsWith_iff; exact H. }
    rewrite Hp. destruct p; reflexivity.
  - intros [r ->]. reflexivity.
  - intros Hne H1 H2 H3. unfold getImageUrl.
    destruct p as [|c p]; [contradiction|]. cbn [Js.truthy negb].
    destruct (Js.startsWith (String c p) "http://") eqn:E1.
    { exfalso. apply H1, startsWith_iff, E1. }
    destruct (Js.startsWith (String c p) "https://") eqn:E2.
    { exfalso. apply H2, startsWith_iff, E2. }
    destruct (Js.startsWith (String c p) "/") eqn:E3.
    { exfalso. apply H3, startsWith_iff, E3. }
    reflexivity.
Qed.

Lemma getImageUrl_resolution_witness :
  getImageUrl (Some "http://h:9000/") "logo.png"
  = Js.stripTrailingSlash (API_BASE_URL (Some "http://h:9000/"))
    +:+ "/uploads/" +:+ "logo.png".
Proof.
  apply (getImageUrl_resolution (Some "http://h:9000/") "logo.png").
  - discriminate.
  - intros [r Hr]. discriminate Hr.
  - intros [r Hr]. discriminate Hr.
  - intros [r Hr]. discriminate Hr.
Defined.

(** The empty string starts with none of the three prefixes, and it is not
    resolved under [<base>/uploads/]. *)
Lemma getImageUrl_empty_not_under_uploads :
  Js.startsWith "" "http://" = false
  /\ Js.startsWith "" "https://" = false
  /\ Js.startsWith "" "/" = false
  /\ getImageUrl (Some "http://h:9000/") ""
     <> Js.stripTrailingSlash (API_BASE_URL (Some "http://h:9000/"))
        +:+ "/uploads/" +:+ "".
Proof. repeat split. discriminate. Qed.

(** ** The derived view of a list controller *)

Lemma includes_app (pre t post : string) :
  Js.includes (pre +:+ t +:+ post) t = true.
Proof.
  induction pre as [|c pre IH]; simpl.
  - destruct t as [|d t].
    + destruct post; reflexivity.
    + simpl. rewrite Ascii.eqb_refl, startsWith_app. reflexivity.
  - rewrite IH. apply orb_true_r.
Qed.

Lemma includes_inv (s t : string) :
  Js.includes s t = true -> exists pre post, s = pre +:+ t +:+ post.
Proof.
  induction s as [|c s IH]; simpl; intros H.
  - rewrite orb_false_r in H. apply startsWith_inv in H as [r ->].
    exists "", r. reflexivity.
  - apply orb_true_iff in H as [H|H].
    + apply startsWith_inv in H as [r ->]. exists "", r. reflexivity.
    + destruct (IH H) as (pre & post & ->).
      exists (String c pre), post. reflexivity.
Qed.

Lemma includes_iff (s t : string) :
  Js.includes s t = true <-> exists pre post, s = pre +:+ t +:+ post.
Proof.
  split; [apply includes_inv|]. intros (pre & post & ->). apply includes_app.
Qed.

Lemma includes_ci_substring (text term : string) :
  Js.includes (Js.toLowerCase text) (Js.toLowerCase term) = true
  <-> ci_substring text term.
Proof. apply includes_iff. Qed.

Lemma includes_nil (s : string) : Js.includes s "" = true.
Proof. destruct s; reflexivity. Qed.

Lemma includes_nil_l (t : string) : Js.includes "" t = negb (Js.truthy t).
Proof. destruct t; reflexivity. Qed.

Lemma truthy_toLowerCase (s : string) :
  Js.truthy (Js.toLowerCase s) = Js.truthy s.
Proof. destruct s; reflexivity. Qed.

Lemma truthy_false (s : string) : Js.truthy s = false -> s = "".
Proof. destruct s; [reflexivity|discriminate]. Qed.

Lemma filter_filter_andb {A} (f g : A -> bool) (l : list A) :
  List.filter g (List.filter f l) = List.filter (fun x => f x && g x) l.
Proof.
  induction l as [|x l IH]; simpl; [reflexivity|].
  destruct (f x); simpl; [|exact IH].
  destruct (g x); rewrite IH; reflexivity.
Qed.

Lemma filter_sublist {A} (f : A -> bool) (l : list A) :
  sublist (List.filter f l) l.
Proof.
  induction l as [|x l IH]; simpl; [constructor|].
  destruct (f x); [apply sublist_skip|apply sublist_cons]; exact IH.
Qed.

Lemma recomputeVisible_In {A} (textFields : A -> list string)
      (inCategory : A -> bool) (C : list A) (searchTerm : string) (record : A) :
  In record (recomputeVisible textFields inCategory C searchTerm)
  <-> In record C
      /\ (exists field, In field (textFields record) /\ ci_substring field searchTerm)
      /\ inCategory record = true.
Proof.
  unfold recomputeVisible. rewrite filter_In, andb_true_iff, existsb_exists.
  split.
  - intros (HC & (field & Hin & Hinc) & Hcat).
    repeat split; [exact HC| |exact Hcat].
    exists field. split; [exact Hin|]. apply includes_ci_substring, Hinc.
  - intros (HC & (field & Hin & Hci) & Hcat).
    repeat split; [exact HC| |exact Hcat].
    exists field. split; [exact Hin|]. apply includes_ci_substring, Hci.
Qed.

Lemma filterGames_refines (games : list Game.t) (searchTerm : string)
      (selectedMainTag : GamesPage.SelectedMainTag) :
  GamesPage.filterGames games searchTerm selectedMainTag
  = recomputeVisible gameTextFields (gameInCategory selectedMainTag) games searchTerm.
Proof.
  unfold GamesPage.filterGames, recomputeVisible, gameTextFields.
  destruct (Js.truthy searchTerm) eqn:Hterm.
  - destruct selectedMainTag; cbn [gameInCategory];
      rewrite ?filter_filter_andb; apply filter_ext; intros game; simpl;
      rewrite orb_false_r, ?andb_true_r; reflexivity.
  - apply truthy_false in Hterm. subst searchTerm.
    destruct selectedMainTag; cbn [gameInCategory];
      [rewrite <- (filter_true games) at 1|..]; apply filter_ext; intros game;
      simpl; rewrite includes_nil; reflexivity.
Qed.

Lemma fieldIncludes_present (s searchTerm : string) :
  Js.truthy searchTerm = true ->
  UsersPage.fieldIncludes (Some s) searchTerm
  = Js.includes (Js.toLowerCase s) (Js.toLowerCase searchTerm).
Proof.
  intros Hterm. unfold UsersPage.fieldIncludes.
  destruct s as [|c s]; [|reflexivity].
  change (false = Js.includes "" (Js.toLowerCase searchTerm)).
  rewrite includes_nil_l, truthy_toLowerCase, Hterm. reflexivity.
Qed.

Lemma filterUsers_refines (users : list User.t) (searchTerm : string)
      (filterSubscription : UsersPage.FilterSubscription) :
  UsersPage.filterUsers users searchTerm filterSubscription
  = recomputeVisible userTextFields (userInCategory filterSubscription) users searchTerm.
Proof.
  unfold UsersPage.filterUsers, recomputeVisible.
  destruct (Js.truthy searchTerm) eqn:Hterm.
  - assert (Htext : forall user,
               UsersPage.fieldIncludes (User.username user) searchTerm
               || UsersPage.fieldIncludes (User.email user) searchTerm
               || Js.includes (Js.toLowerCase (User._id user))
                              (Js.toLowerCase searchTerm)
               = existsb (fun field => Js.includes (Js.toLowerCase field)
                                                   (Js.toLowerCase searchTerm))
                         (userTextFields user)).
    { intros user. unfold userTextFields.
      destruct (User.username user) as [u|], (User.email user) as [e|];
        rewrite ?fieldIncludes_present by exact Hterm; simpl;
        rewrite ?orb_false_r, ?orb_assoc; reflexivity. }
    destruct filterSubscription; cbn [userInCategory];
      rewrite ?filter_filter_andb; apply filter_ext; intros user;
      rewrite Htext, ?andb_true_r; reflexivity.
  - apply truthy_false in Hterm. subst searchTerm.
    assert (Htext : forall user,
               existsb (fun field => Js.includes (Js.toLowerCase field)
                                                 (Js.toLowerCase ""))
                       (userTextFields user) = true).
    { intros user. apply existsb_exists. exists (User._id user). split.
      - unfold userTextFields. rewrite !in_app_iff. right. right. left. reflexivity.
      - apply includes_nil. }
    destruct filterSubscription; cbn [userInCategory];
      [rewrite <- (filter_true users) at 1|..]; apply filter_ext; intros user;
      rewrite Htext; reflexivity.
Qed.

Lemma and_iff_both (P P' Q Q' : Prop) :
  (P <-> P') -> (Q <-> Q') -> (P /\ Q <-> P' /\ Q').
Proof. tauto. Qed.

(** C5: the visible collection computed by [filterGames] and by
    [filterUsers] is a function of the source collection and the criteria
    alone; it holds exactly the records one of whose text fields contains
    the search term, case being ignored, and that the category selector
    admits, in the order of the source collection. *)
Theorem recomputeVisible_exact_in_order :
  (forall games searchTerm selectedMainTag,
      GamesPage.filterGames games searchTerm selectedMainTag
      = recomputeVisible gameTextFields (gameInCategory selectedMainTag)
                         games searchTerm
      /\ sublist (GamesPage.filterGames games searchTerm selectedMainTag) games
      /\ forall game,
          In game (GamesPage.filterGames games searchTerm selectedMainTag)
          <-> In game games
              /\ (ci_substring (Game.title game) searchTerm
                  \/ ci_substring (Game.description game) searchTerm)
              /\ (selectedMainTag = GamesPage.all
                  \/ GamesPage.mainTagIs (Game.mainTag game) selectedMainTag = true))
  /\ (forall users searchTerm filterSubscription,
         UsersPage.filterUsers users searchTerm filterSubscription
         = recomputeVisible userTextFields (userInCategory filterSubscription)
                            users searchTerm
         /\ sublist (UsersPage.filterUsers users searchTerm filterSubscription) users
         /\ forall user,
             In user (UsersPage.filterUsers users searchTerm filterSubscription)
             <-> In user users
                 /\ (User.username user <> None
                     /\ ci_substring (default "" (User.username user)) searchTerm
                     \/ User.email user <> None
                        /\ ci_substring (default "" (User.email user)) searchTerm
                     \/ ci_substring (User._id user) searchTerm)
                 /\ match filterSubscription with
                    | UsersPage.all => True
                    | UsersPage.subscribed => User.isSubscribed user = true
                    | UsersPage.unsubscribed => User.isSubscribed user = false
                    end).
Proof.
  split.
  - intros games searchTerm selectedMainTag.
    rewrite filterGames_refines. split; [reflexivity|]. split.
    { apply filter_sublist. }
    intros game. rewrite recomputeVisible_In. apply and_iff_compat_l.
    apply and_iff_both.
    + unfold gameTextFields. split.
      * intros (field & [<-|[<-|[]]] & Hci); [left|right]; exact Hci.
      * intros [Hci|Hci]; eexists; (split; [|exact Hci]); simpl; auto.
    + destruct selectedMainTag; cbn [gameInCategory]; split; auto;
        intros [H|H]; try discriminate; auto.
  - intros users searchTerm filterSubscription.
    rewrite filterUsers_refines. split; [reflexivity|]. split.
    { apply filter_sublist. }
    intros user. rewrite recomputeVisible_In. apply and_iff_compat_l.
    apply and_iff_both.
    + unfold userTextFields. split.
      * intros (field & Hin & Hci). rewrite !in_app_iff in Hin.
        destruct Hin as [Hin|[Hin|[<-|[]]]]; [| |right; right; exact Hci].
        -- destruct (User.username user) as [u|]; [|destruct Hin].
           destruct Hin as [<-|[]]. left. split; [discriminate|exact Hci].
        -- destruct (User.email user) as [e|]; [|destruct Hin].
           destruct Hin as [<-|[]]. right. left. split; [discriminate|exact Hci].
      * intros [[Hu Hci]|[[He Hci]|Hci]].
        -- destruct (User.username user) as [u|]; [|contradiction].
           exists u. rewrite !in_app_iff. simpl. auto.
        -- destruct (User.email user) as [e|]; [|contradiction].
           exists e. rewrite !in_app_iff. simpl. auto.
        -- exists (User._id user). rewrite !in_app_iff. simpl. auto.
    + destruct filterSubscription; cbn [userInCategory];
        rewrite ?negb_true_iff; tauto.
Qed.

(** ** The axios wrapper *)

Section Client.
Context {backend : Backend}.

Lemma client_rejected (r : request) (w : World) (status : option nat) s' :
  backend_reply r (ApiClient.authorization w) (server w) = (Err status, s') ->
  ApiClient.client r w
  = (Rejected (AxiosError status),
     ApiClient.on_response_error status
       (mkWorld (cookies w) (location_href w) s'),
     [Sent r (ApiClient.authorization w); Received r (Err status)]).
Proof. intros Hrep. unfold ApiClient.client. rewrite Hrep. reflexivity. Qed.

Lemma client_resolved (r : request) (w : World) (data : response_data r) s' :
  backend_reply r (ApiClient.authorization w) (server w) = (Ok data, s') ->
  ApiClient.client r w
  = (Resolved data, mkWorld (cookies w) (location_href w) s',
     [Sent r (ApiClient.authorization w); Received r (Ok data)]).
Proof. intros Hrep. unfold ApiClient.client. rewrite Hrep. reflexivity. Qed.

Lemma bind_rejected {A B} (m : M A) (k : A -> M B) (w w1 : World) e t1 :
  m w = (Rejected e, w1, t1) -> bind m k w = (Rejected e, w1, t1).
Proof. intros Hm. unfold bind. rewrite Hm. reflexivity. Qed.

Lemma bind_resolved {A B} (m : M A) (k : A -> M B) (w w1 : World) a t1 :
  m w = (Resolved a, w1, t1) ->
  bind m k w = (outcome_of (k a w1), world_of (k a w1), t1 ++ trace_of (k a w1)).
Proof.
  intros Hm. unfold bind. rewrite Hm.
  destruct (k a w1) as [[o w2] t2]. reflexivity.
Qed.

Lemma session_ended_after_401 (w : World) s' :
  AuthContext.session_ended
    (ApiClient.on_response_error (Some 401)
       (mkWorld (cookies w) (location_href w) s')).
Proof.
  unfold ApiClient.on_response_error, AuthContext.session_ended,
    AuthContext.isAuthenticated_on_mount.
  rewrite decide_True by reflexivity. simpl.
  rewrite lookup_delete_eq. repeat split.
Qed.

(** C4: whatever the request, when the response has status 401 the wrapper
    removes the cookie [admin_token] and sends the browser to the login
    route, so that the session store comes up unauthenticated; this holds
    for the bare axios call and for the [ApiClient] method that issues
    it, none of which has a parameter to switch it off. *)
Theorem unauthorized_ends_session (r : request) (w : World) s' :
  backend_reply r (ApiClient.authorization w) (server w) = (Err (Some 401), s') ->
  outcome_of (ApiClient.client r w) = Rejected (AxiosError (Some 401))
  /\ AuthContext.session_ended (world_of (ApiClient.client r w))
  /\ AuthContext.session_ended (world_of (ApiClient.operation r w)).
Proof.
  intros Hrep. pose proof (client_rejected r w _ _ Hrep) as Hc.
  split; [rewrite Hc; reflexivity|].
  split; [rewrite Hc; apply session_ended_after_401|].
  destruct r; cbn [ApiClient.operation];
    try (erewrite bind_rejected;
         [apply session_ended_after_401
         |first [exact Hc | apply bind_rejected; exact Hc]]).
  - (* a login route: the rejection is caught by the loop *)
    unfold ApiClient.login_attempt, bind, try_catch, emit, ret.
    rewrite Hc. simpl. apply session_ended_after_401.
  - (* setSubscription logs before it sends *)
    unfold ApiClient.setSubscription, bind, emit, ret.
    rewrite Hc. simpl. apply session_ended_after_401.
Qed.

(** *** The login loop *)

Lemma login_attempt_spec (endpoint username password : string) (w : World) :
  exists (rep : reply LoginResponse) (w' : World) (auth : option string) (msg : string),
    ApiClient.login_attempt endpoint username password w
    = (Resolved (match rep with Ok data => Some data | Err _ => None end), w',
       [Effect (console_log ("Trying login endpoint: " +:+ endpoint));
        Sent (PostLogin endpoint username password) auth;
        Received (PostLogin endpoint username password) rep;
        Effect (console_log msg)]).
Proof.
  unfold ApiClient.login_attempt, ApiClient.client, bind, try_catch, emit, ret.
  destruct (backend_reply (PostLogin endpoint username password)
              (ApiClient.authorization w) (server w)) as [[data|status] s'];
    simpl; [eexists (Ok data), _, _, _|eexists (Err status), _, _, _];
    reflexivity.
Qed.

Lemma login_from_spec (endpoints : list string) (username password : string)
      (w : World) :
  let res := ApiClient.login_from endpoints username password w in
  let attempts := omap login_reply (trace_of res) in
  omap login_posted (trace_of res) = attempts.*1
  /\ attempts.*1 `prefix_of` endpoints
  /\ match outcome_of res with
     | Resolved data =>
         exists failures endpoint,
           attempts = failures ++ [(endpoint, Ok data)]
           /\ Forall (fun a => failed a.2) failures
     | Rejected e =>
         e = Error "All login endpoints failed"
         /\ attempts.*1 = endpoints
         /\ Forall (fun a => failed a.2) attempts
     end.
Proof.
  revert w. induction endpoints as [|endpoint rest IH]; intros w.
  - cbn. repeat split; [apply prefix_nil|constructor].
  - cbn [ApiClient.login_from].
    destruct (login_attempt_spec endpoint username password w)
      as (rep & w' & auth & msg & Hattempt).
    rewrite (bind_resolved _ _ _ _ _ _ Hattempt).
    destruct rep as [data|status].
    + cbn. repeat split.
      * apply prefix_cons, prefix_nil.
      * exists [], endpoint. split; [reflexivity|constructor].
    + specialize (IH w'). cbv zeta in IH.
      destruct (ApiClient.login_from rest username password w')
        as [[o w2] t2].
      unfold outcome_of, world_of, trace_of in *. cbn in IH |- *.
      destruct IH as (Hposted & Hprefix & Hout).
      split; [f_equal; exact Hposted|].
      split; [apply prefix_cons, Hprefix|].
      destruct o as [data|e].
      * destruct Hout as (failures & endpoint' & -> & Hfailed).
        exists ((endpoint, Err status) :: failures), endpoint'.
        split; [reflexivity|]. constructor; [exact I|exact Hfailed].
      * destruct Hout as (-> & Hall & Hfailed).
        repeat split; [f_equal; exact Hall|].
        constructor; [exact I|exact Hfailed].
Qed.

Lemma failed_not_last {D} (l failures : list (string * reply D)) endpoint data :
  Forall (fun a => failed a.2) l ->
  l <> failures ++ [(endpoint, Ok data)].
Proof.
  intros Hall ->. apply Forall_app in Hall as [_ Hlast].
  inversion Hlast as [|? ? Hf _]. exact Hf.
Qed.

(** C9: [login] posts the credentials to the five candidate endpoints in
    their fixed order, one after the other; it returns the data of the
    first endpoint that answers successfully, after which no other request
    is made; and it throws exactly when all five endpoints have been tried
    and have failed. *)
Theorem login_first_success (username password : string) (w : World) :
  let res := ApiClient.login username password w in
  let attempts := omap login_reply (trace_of res) in
  length ApiClient.login_endpoints = 5
  /\ omap login_posted (trace_of res) = attempts.*1
  /\ attempts.*1 `prefix_of` ApiClient.login_endpoints
  /\ (forall data,
         outcome_of res = Resolved data
         <-> exists failures endpoint,
             attempts = failures ++ [(endpoint, Ok data)]
             /\ Forall (fun a => failed a.2) failures)
  /\ ((exists e, outcome_of res = Rejected e)
      <-> attempts.*1 = ApiClient.login_endpoints
          /\ Forall (fun a => failed a.2) attempts)
  /\ (forall e, outcome_of res = Rejected e
                -> e = Error "All login endpoints failed").
Proof.
  intros res attempts.
  destruct (login_from_spec ApiClient.login_endpoints username password w)
    as (Hposted & Hprefix & Hout).
  fold (ApiClient.login username password w) in Hposted, Hprefix, Hout.
  fold res in Hposted, Hprefix, Hout. fold attempts in Hposted, Hprefix, Hout.
  split; [reflexivity|]. split; [exact Hposted|]. split; [exact Hprefix|].
  destruct (outcome_of res) as [data|e].
  - destruct Hout as (failures & endpoint & Hatt & Hfailed).
    split; [intros data'; split|split; [split|]].
    + intros [= <-]. exists failures, endpoint. split; assumption.
    + intros (failures' & endpoint' & Hatt' & _).
      rewrite Hatt in Hatt'. apply app_inj_tail in Hatt' as [_ Heq].
      congruence.
    + intros [e He]. discriminate He.
    + intros [_ Hall]. exfalso.
      exact (failed_not_last _ _ _ _ Hall Hatt).
    + intros e He. discriminate He.
  - destruct Hout as (-> & Hall & Hfailed).
    split; [intros data; split|split; [split|]].
    + intros Hres. discriminate Hres.
    + intros (failures & endpoint & Hatt & _). exfalso.
      exact (failed_not_last _ _ _ _ Hfailed Hatt).
    + intros _. split; [exact Hall|exact Hfailed].
    + intros _. eexists. reflexivity.
    + intros e [= <-]. reflexivity.
Qed.

End Client.

(** ** The game mutation form: submission *)

(** Scan a concrete trace for the position [i] of a request: every position
    is either not a request, or a request without a game payload, or left
    to the caller with the payload identified. *)
Ltac scan_trace Hsent Hpay i :=
  lazymatch type of Hsent with
  | (_ :: _) !! _ = _ =>
      destruct i as [|i]; cbn [lookup list_lookup] in Hsent;
      [first [discriminate Hsent
             |injection Hsent as <- <-; cbn [game_payload] in Hpay;
              first [discriminate Hpay|idtac]]
      |scan_trace Hsent Hpay i]
  | _ => first [discriminate Hsent|destruct i; discriminate Hsent]
  end.

Ltac unfold_submit :=
  unfold GameForm.handleSubmit, GameForm.uploadImage,
    GameFormEarlier.handleSubmit, GameFormEarlier.uploadImage,
    ApiClient.uploadImage, ApiClient.updateGame, ApiClient.createGame,
    ApiClient.client;
  unfold bind, finally, try_catch, emit, ret, throw, trace_of.

Ltac split_on_reply :=
  lazymatch goal with
  | |- context [backend_reply ?r ?a ?s] =>
      let data := fresh "data" in
      let status := fresh "status" in
      let s' := fresh "s'" in
      destruct (backend_reply r a s) as [[data|status] s']
  end.

Arguments ApiClient.on_response_error : simpl never.
Arguments ApiClient.authorization : simpl never.

Section Form.
Context {backend : Backend}.

(** C2: when a file has been selected, every create or update request that
    [handleSubmit] issues comes after the upload request has been answered
    with [{success: true, url}], [url] not empty, and carries that [url]
    as its [imageUrl]: neither the draft's own [imageUrl] nor the preview
    address of the local file. *)
Theorem upload_completes_before_mutation
        (game : option Game.t) (st : GameForm.State) (file : File.t) (w : World) :
  GameForm.selectedFile st = Some file ->
  forall i r auth gameData,
    trace_of (GameForm.handleSubmit game st w) !! i = Some (Sent r auth) ->
    game_payload r = Some gameData ->
    exists k j uploadedUrl auth',
      k < j < i
      /\ trace_of (GameForm.handleSubmit game st w) !! k
         = Some (Sent (PostUploadPicture file) auth')
      /\ trace_of (GameForm.handleSubmit game st w) !! j
         = Some (Received (PostUploadPicture file)
                   (Ok {| upload_success := true;
                          upload_url := Some uploadedUrl |}))
      /\ uploadedUrl <> ""
      /\ FormData.imageUrl gameData = uploadedUrl.
Proof.
  intros Hfile i r auth gameData.
  unfold_submit. rewrite Hfile.
  destruct (backend_reply (PostUploadPicture file) (ApiClient.authorization w)
              (server w)) as [[[success [url|]]|status] s1]; simpl.
  - destruct success, url as [|c url]; simpl;
      try solve [intros Hsent Hpay; exfalso; scan_trace Hsent Hpay i].
    destruct game as [g|]; simpl; split_on_reply; simpl;
      intros Hsent Hpay; scan_trace Hsent Hpay i;
      injection Hpay as <-;
      exists 5, 6, (String c url), (ApiClient.authorization w);
      (split; [lia|]); repeat split; discriminate.
  - intros Hsent Hpay; exfalso; scan_trace Hsent Hpay i.
  - intros Hsent Hpay; exfalso; scan_trace Hsent Hpay i.
Qed.

(** The same ordering in the earlier revision of the form. *)
Lemma upload_completes_before_mutation_earlier
      (game : option Game.t) (st : GameForm.State) (file : File.t) (w : World) :
  GameForm.selectedFile st = Some file ->
  forall i r auth gameData,
    trace_of (GameFormEarlier.handleSubmit game st w) !! i = Some (Sent r auth) ->
    game_payload r = Some gameData ->
    exists k j uploadedUrl auth',
      k < j < i
      /\ trace_of (GameFormEarlier.handleSubmit game st w) !! k
         = Some (Sent (PostUploadPicture file) auth')
      /\ trace_of (GameFormEarlier.handleSubmit game st w) !! j
         = Some (Received (PostUploadPicture file)
                   (Ok {| upload_success := true;
                          upload_url := Some uploadedUrl |}))
      /\ uploadedUrl <> ""
      /\ FormData.imageUrl gameData = uploadedUrl
      /\ FormData.additionalTags gameData
         = List.filter notNullish (FormData.additionalTags (GameForm.formData st)).
Proof.
  intros Hfile i r auth gameData.
  unfold_submit. rewrite Hfile.
  destruct (backend_reply (PostUploadPicture file) (ApiClient.authorization w)
              (server w)) as [[[success [url|]]|status] s1]; simpl.
  - destruct success, url as [|c url]; simpl;
      try solve [intros Hsent Hpay; exfalso; scan_trace Hsent Hpay i].
    destruct game as [g|]; simpl; split_on_reply; simpl;
      intros Hsent Hpay; scan_trace Hsent Hpay i;
      injection Hpay as <-;
      exists 4, 5, (String c url), (ApiClient.authorization w);
      (split; [lia|]); repeat split; discriminate.
  - intros Hsent Hpay; exfalso; scan_trace Hsent Hpay i.
  - intros Hsent Hpay; exfalso; scan_trace Hsent Hpay i.
Qed.

(** The tags of every create or update request are the tags of the draft
    with [null] and [undefined] removed, whether or not a file was
    selected. *)
Lemma submit_strips_nullish_tags
      (game : option Game.t) (st : GameForm.State) (w : World) :
  forall i r auth gameData,
    trace_of (GameForm.handleSubmit game st w) !! i = Some (Sent r auth) ->
    game_payload r = Some gameData ->
    FormData.additionalTags gameData
    = List.filter notNullish (FormData.additionalTags (GameForm.formData st))
    /\ Forall (fun tag => tag <> TagNull /\ tag <> TagUndefined)
              (FormData.additionalTags gameData).
Proof.
  assert (Hclean : forall tags,
             Forall (fun tag => tag <> TagNull /\ tag <> TagUndefined)
                    (List.filter notNullish tags)).
  { intros tags. apply List.Forall_forall. intros tag Hin.
    apply filter_In in Hin as [_ Htag].
    split; intros ->; discriminate Htag. }
  intros i r auth gameData.
  unfold_submit.
  destruct (GameForm.selectedFile st) as [file|].
  - destruct (backend_reply (PostUploadPicture file) (ApiClient.authorization w)
                (server w)) as [[[success [url|]]|status] s1]; simpl.
    + destruct success, url as [|c url]; simpl;
        try solve [intros Hsent Hpay; exfalso; scan_trace Hsent Hpay i].
      destruct game as [g|]; simpl; split_on_reply; simpl;
        intros Hsent Hpay; scan_trace Hsent Hpay i;
        injection Hpay as <-; (split; [reflexivity|apply Hclean]).
    + intros Hsent Hpay; exfalso; scan_trace Hsent Hpay i.
    + intros Hsent Hpay; exfalso; scan_trace Hsent Hpay i.
  - destruct game as [g|]; simpl; split_on_reply; simpl;
      intros Hsent Hpay; scan_trace Hsent Hpay i;
      injection Hpay as <-; (split; [reflexivity|apply Hclean]).
Qed.

(** A bare array of games comes back from [getGames] with [null] and
    [undefined] removed from the tags of every game. *)
Lemma getGames_bare_strips_nullish_tags (w : World) (items : list Game.t) s' :
  backend_reply GetGames (ApiClient.authorization w) (server w)
  = (Ok (Bare items), s') ->
  exists games,
    outcome_of (ApiClient.getGames w) = Resolved (Bare games)
    /\ Forall (fun game =>
                 exists tags, Game.additionalTags game = Some tags
                              /\ forallb notNullish tags = true)
              games.
Proof.
  intros Hrep. exists (List.map ApiClient.withGameId items). split.
  - unfold ApiClient.getGames.
    rewrite (bind_resolved _ _ _ _ _ _ (client_resolved _ _ _ _ Hrep)).
    reflexivity.
  - apply List.Forall_forall. intros game Hin.
    apply in_map_iff in Hin as (g0 & <- & _).
    eexists. split; [reflexivity|].
    apply forallb_forall. intros tag Htag.
    apply filter_In in Htag as [_ Htag]. exact Htag.
Qed.

End Form.

(** ** What the list methods return, and what the controllers keep *)

Section Lists.
Context {backend : Backend}.




End Lists.

(** ** The game mutation form: pruning of the selected tags *)

Lemma filter_length_le {A} (f : A -> bool) (l : list A) :
  length (List.filter f l) <= length l.
Proof.
  induction l as [|x l IH]; simpl; [lia|]. destruct (f x); simpl; lia.
Qed.

Lemma filter_same_length {A} (f : A -> bool) (l : list A) :
  length (List.filter f l) = length l -> List.filter f l = l.
Proof.
  induction l as [|x l IH]; simpl; [reflexivity|].
  pose proof (filter_length_le f l) as Hle.
  destruct (f x); simpl; intros Hlen; [f_equal; apply IH; lia|lia].
Qed.

Lemma includesId_true (validTagIds : list string) (id : TagRef) :
  GameForm.includesId validTagIds id = true
  <-> exists s, id = TagId s /\ In s validTagIds.
Proof.
  destruct id as [| |s|tag]; simpl.
  - split; [discriminate|]. intros (s & Hs & _). discriminate Hs.
  - split; [discriminate|]. intros (s & Hs & _). discriminate Hs.
  - rewrite existsb_exists. split.
    + intros (s' & Hin & Heq). apply String.eqb_eq in Heq. subst s'.
      exists s. split; [reflexivity|exact Hin].
    + intros (s' & [= <-] & Hin). exists s. split; [exact Hin|].
      apply String.eqb_refl.
  - split; [discriminate|]. intros (s & Hs & _). discriminate Hs.
Qed.

Lemma setFormData_same (st : GameForm.State) :
  GameForm.setFormData st
    (fun prev => GameForm.withAdditionalTags prev
                   (FormData.additionalTags (GameForm.formData st)))
  = st.
Proof. destruct st as [[] ? ? ? ? ? ?]. reflexivity. Qed.

(** C8, as the code has it: while an existing game is edited the effect
    leaves the draft as it is; while a new record is created, and the tag
    collection that was loaded is not empty, the selected tags become
    those of the selection that are the id of a loaded tag, in their order,
    and nothing else of the form changes. *)
Theorem pruneTagsEffect_spec (st : GameForm.State) :
  (forall game, GameForm.pruneTagsEffect (Some game) st = st)
  /\ (GameForm.availableTags st <> [] ->
      let validTagIds := List.map AdditionalTag._id (GameForm.availableTags st) in
      let selected := FormData.additionalTags (GameForm.formData st) in
      let st' := GameForm.pruneTagsEffect None st in
      st' = GameForm.setFormData st
              (fun prev => GameForm.withAdditionalTags prev
                             (List.filter (GameForm.includesId validTagIds) selected))
      /\ sublist (FormData.additionalTags (GameForm.formData st')) selected
      /\ forall id,
          In id (FormData.additionalTags (GameForm.formData st'))
          <-> In id selected
              /\ exists tag, In tag (GameForm.availableTags st)
                             /\ id = TagId (AdditionalTag._id tag)).
Proof.
  split.
  - intros game. unfold GameForm.pruneTagsEffect.
    destruct (_ && _); reflexivity.
  - intros Havail validTagIds selected st'.
    assert (Hst' : st' = GameForm.setFormData st
                           (fun prev => GameForm.withAdditionalTags prev
                              (List.filter (GameForm.includesId validTagIds) selected))).
    { subst st'. unfold GameForm.pruneTagsEffect.
      fold validTagIds. fold selected.
      destruct (length (List.filter (GameForm.includesId validTagIds) selected)
                =? length selected) eqn:Elen.
      - apply Nat.eqb_eq, filter_same_length in Elen. rewrite Elen.
        subst selected. rewrite setFormData_same.
        destruct (_ && _); reflexivity.
      - destruct (GameForm.availableTags st) as [|tag0 tags]; [contradiction|].
        destruct selected as [|id0 ids]; [discriminate Elen|]. reflexivity. }
    split; [exact Hst'|]. rewrite Hst'. cbn.
    split; [apply filter_sublist|].
    intros id. rewrite filter_In, includesId_true. apply and_iff_compat_l.
    split.
    + intros (s & -> & Hin). apply in_map_iff in Hin as (tag & <- & Hin).
      exists tag. split; [exact Hin|reflexivity].
    + intros (tag & Hin & ->). exists (AdditionalTag._id tag).
      split; [reflexivity|]. apply in_map_iff. exists tag. split; auto.
Qed.

(** ** Runs on the sample backends *)

(** The draft [["t1", null, "t2", undefined]] with a file selected, created
    on a backend that accepts everything: the upload is sent and answered
    first, and the create request carries the stored address and the tags
    [["t1", "t2"]]. *)
Example submit_new_game_with_file :
  omap sent_request
       (trace_of (GameForm.handleSubmit (backend := accepting_backend)
                    None draft_state on_accepting))
  = [PostUploadPicture png;
     PostGame (FormData.mk "Chess" "A board game" "/games/chess"
                           "/uploads/new.png" MainTag.Game
                           [TagId "t1"; TagId "t2"] "" [])].
Proof. vm_compute. reflexivity. Qed.

Lemma upload_completes_before_mutation_witness :
  exists k j uploadedUrl auth',
    k < j < 9
    /\ trace_of (GameForm.handleSubmit (backend := accepting_backend)
                   None draft_state on_accepting) !! k
       = Some (Sent (PostUploadPicture png) auth')
    /\ trace_of (GameForm.handleSubmit (backend := accepting_backend)
                   None draft_state on_accepting) !! j
       = Some (Received (PostUploadPicture png)
                 (Ok {| upload_success := true; upload_url := Some uploadedUrl |}))
    /\ uploadedUrl <> ""
    /\ FormData.imageUrl
         (GameForm.withImageAndTags draft "/uploads/new.png"
            [TagId "t1"; TagId "t2"]) = uploadedUrl.
Proof.
  apply (upload_completes_before_mutation (backend := accepting_backend)
           None draft_state png on_accepting eq_refl 9
           (PostGame (GameForm.withImageAndTags draft "/uploads/new.png"
                        [TagId "t1"; TagId "t2"]))
           (Some "Bearer tok")).
  - vm_compute. reflexivity.
  - reflexivity.
Defined.

(** C3, on the envelope: when the games arrive wrapped in [{success, data}],
    [getGames] hands the envelope over as it is and the page stores its
    [data]; the game whose tags are [["t1", null]] is stored, and counted
    on its card, with the [null] still in place, whereas the same game in a
    bare array is stored with the tags [["t1"]]. *)
Theorem envelope_games_keep_nullish_tags :
  trace_of (GamesPage.fetchData (backend := enveloping_backend) on_enveloping)
  = [Sent GetGames (Some "Bearer tok");
     Received GetGames (Ok (Envelope true (Some [sparse_game])));
     Sent GetAdditionalTags (Some "Bearer tok");
     Received GetAdditionalTags (Ok (Bare []));
     Effect (setGames [sparse_game]);
     Effect (setTags []);
     Effect (setLoading false)]
  /\ Game.additionalTags sparse_game = Some [TagId "t1"; TagNull]
  /\ GamesPage.tagsBadge sparse_game = Some 2
  /\ omap (fun e => match e with Effect (setGames games) => Some games | _ => None end)
          (trace_of (GamesPage.fetchData (backend := accepting_backend) on_accepting))
     = [[Game.mk "g1" (Some "g1") "Chess" "A board game" "/games/chess" "old.png"
                 MainTag.Game (Some [TagId "t1"]) None None]].
Proof. repeat split; vm_compute; reflexivity. Qed.

Lemma unauthorized_ends_session_witness :
  AuthContext.session_ended
    (world_of (ApiClient.operation (backend := unauthorized_backend)
                 GetGames on_unauthorized)).
Proof.
  apply (unauthorized_ends_session (backend := unauthorized_backend)
           GetGames on_unauthorized tt).
  reflexivity.
Defined.



(** C7, on the code at hand: the classifier selected in the form is passed
    as a second argument to [createAdditionalTag], which has one parameter
    and posts [{name}]; the requests that [handleCreateTag] issues are the
    same whatever was selected, and for the name ["RPG"] and the classifier
    ["Software"] the body of the create request has the one key [name]. *)
Theorem create_tag_request_omits_belongsTo :
  (forall (backend : Backend) newTagName belongsTo1 belongsTo2 (w : World),
      TagsPage.handleCreateTag newTagName belongsTo1 w
      = TagsPage.handleCreateTag newTagName belongsTo2 w)
  /\ omap sent_request
          (trace_of (TagsPage.handleCreateTag (backend := accepting_backend)
                       " RPG " "Software" on_accepting))
     = [PostAdditionalTag "RPG"; GetAdditionalTags]
  /\ body_keys (PostAdditionalTag "RPG") = ["name"]
  /\ ~ In "belongsTo" (body_keys (PostAdditionalTag "RPG")).
Proof.
  split; [reflexivity|]. split; [vm_compute; reflexivity|].
  split; [reflexivity|]. simpl. intros [H|[]]. discriminate H.
Qed.

(** While a record is created and no tag is loaded, a selected id that is
    the id of no available tag stays in the draft. *)
Lemma prune_keeps_unknown_tag_when_no_tag_loaded :
  In (TagId "gone")
     (FormData.additionalTags
        (GameForm.formData (GameForm.pruneTagsEffect None stale_state_no_tags)))
  /\ ~ exists tag, In tag (GameForm.availableTags stale_state_no_tags)
                   /\ AdditionalTag._id tag = "gone".
Proof.
  split.
  - simpl. right. left. reflexivity.
  - intros (tag & Hin & _). destruct Hin.
Qed.

Lemma pruneTagsEffect_spec_witness :
  FormData.additionalTags
    (GameForm.formData (GameForm.pruneTagsEffect None stale_state))
  = [TagId "t1"].
Proof.
  destruct (proj2 (pruneTagsEffect_spec stale_state)) as [Hst' _].
  - discriminate.
  - rewrite Hst'. reflexivity.
Defined.

(** On a backend that knows the third route only, [login] tries three
    routes and returns what the third answered. *)
Example login_third_route :
  outcome_of (ApiClient.login (backend := single_route_backend)
                "admin" "admin" on_single_route)
  = Resolved {| login_success := true; login_token := Some "tok" |}
  /\ omap login_posted
          (trace_of (ApiClient.login (backend := single_route_backend)
                       "admin" "admin" on_single_route))
     = ["/admin/auth/login"; "/admin/login"; "/auth/login"].
Proof. split; vm_compute; reflexivity. Qed.

(** On a backend that answers 401 to every route, [login] throws after the
    five routes, and the first 401 has already ended the session. *)
Example login_all_routes_fail :
  outcome_of (ApiClient.login (backend := unauthorized_backend)
                "admin" "admin" on_unauthorized)
  = Rejected (Error "All login endpoints failed")
  /\ omap login_posted
          (trace_of (ApiClient.login (backend := unauthorized_backend)
                       "admin" "admin" on_unauthorized))
     = ApiClient.login_endpoints.
Proof. split; vm_compute; reflexivity. Qed.

(** * Further properties of the code *)

(** ** Image reference resolution, continued *)

Lemma append_cons (x : ascii) (a b : string) :
  String x a +:+ b = String x (a +:+ b).
Proof. reflexivity. Qed.

Lemma append_assoc (a b c : string) : (a +:+ b) +:+ c = a +:+ (b +:+ c).
Proof.
  induction a as [|x a IH]; [reflexivity|].
  rewrite !append_cons, IH. reflexivity.
Qed.

Lemma append_empty_r (a b : string) : a +:+ b = "" -> b = "".
Proof. destruct a; simpl; [auto|discriminate]. Qed.

Lemma startsWith_app_l (s t p : string) :
  Js.startsWith s p = true -> Js.startsWith (s +:+ t) p = true.
Proof.
  intros H. apply startsWith_inv in H as [r ->].
  rewrite append_assoc. apply startsWith_app.
Qed.

Lemma stripTrailingSlash_app (p r : string) :
  r <> "" -> Js.stripTrailingSlash (p +:+ r) = p +:+ Js.stripTrailingSlash r.
Proof.
  intros Hr. induction p as [|c p IH]; [reflexivity|].
  rewrite !append_cons, <- IH.
  destruct (p +:+ r) eqn:E; [|reflexivity].
  apply append_empty_r in E. contradiction.
Qed.

(** A base that starts with [q/] still does once it is stripped and a path
    that starts with [/] is appended. *)
Lemma stripped_base_keeps_prefix (q base t : string) :
  Js.startsWith base (q +:+ "/") = true ->
  Js.startsWith t "/" = true ->
  Js.startsWith (Js.stripTrailingSlash base +:+ t) (q +:+ "/") = true.
Proof.
  intros Hbase Ht.
  apply startsWith_inv in Hbase as [r ->]. apply startsWith_inv in Ht as [t' ->].
  destruct r as [|c r].
  - assert (E : (q +:+ "/") +:+ "" = q +:+ "/") by (rewrite append_assoc; reflexivity).
    rewrite E, stripTrailingSlash_slash, <- append_assoc. apply startsWith_app.
  - rewrite stripTrailingSlash_app by discriminate.
    rewrite append_assoc. apply startsWith_app.
Qed.

Lemma startsWith_truthy (s p : string) :
  Js.startsWith s p = true -> Js.truthy p = true -> Js.truthy s = true.
Proof. destruct p, s; simpl; auto; discriminate. Qed.

Lemma getImageUrl_absolute (env : option string) (p : string) :
  Js.startsWith p "http://" || Js.startsWith p "https://" = true ->
  getImageUrl env p = p.
Proof.
  intros H. unfold getImageUrl. rewrite H.
  destruct p; [discriminate H|reflexivity].
Qed.

(** X1: when the configured base URL is itself absolute, a resolved image
    reference resolves to itself. *)
Theorem getImageUrl_idempotent (env : option string) (p : string) :
  Js.startsWith (API_BASE_URL env) "http://"
  || Js.startsWith (API_BASE_URL env) "https://" = true ->
  getImageUrl env (getImageUrl env p) = getImageUrl env p.
Proof.
  intros Hbase.
  assert (Hres : forall t, Js.startsWith t "/" = true ->
                   Js.startsWith (Js.stripTrailingSlash (API_BASE_URL env) +:+ t) "http://"
                   || Js.startsWith (Js.stripTrailingSlash (API_BASE_URL env) +:+ t) "https://"
                   = true).
  { intros t Ht. apply orb_true_iff. apply orb_true_iff in Hbase as [Hb|Hb].
    - left. apply (stripped_base_keeps_prefix "http:/"); assumption.
    - right. apply (stripped_base_keeps_prefix "https:/"); assumption. }
  assert (Hcases :
            getImageUrl env p = ""
            \/ (Js.startsWith p "http://" || Js.startsWith p "https://" = true
                /\ getImageUrl env p = p)
            \/ exists t, Js.startsWith t "/" = true
                         /\ getImageUrl env p
                            = Js.stripTrailingSlash (API_BASE_URL env) +:+ t).
  { unfold getImageUrl.
    destruct (negb (Js.truthy p)); [left; reflexivity|].
    destruct (Js.startsWith p "http://" || Js.startsWith p "https://");
      [right; left; split; reflexivity|].
    right. right. destruct (Js.startsWith p "/") eqn:Hslash.
    - exists p. split; [exact Hslash|reflexivity].
    - exists ("/uploads/" +:+ p). split; reflexivity. }
  destruct Hcases as [->|[[Habs ->]|(t & Ht & ->)]].
  - reflexivity.
  - apply getImageUrl_absolute, Habs.
  - apply getImageUrl_absolute, Hres, Ht.
Qed.

Lemma getImageUrl_idempotent_witness :
  getImageUrl None (getImageUrl None "covers/a.png") = getImageUrl None "covers/a.png".
Proof. apply (getImageUrl_idempotent None "covers/a.png"). reflexivity. Defined.

(** X2: the empty path is the only one that resolves to the empty string,
    so that a preview address is shown exactly for the games that have an
    image path. *)
Theorem getImageUrl_empty_iff (env : option string) (p : string) :
  getImageUrl env p = "" <-> p = "".
Proof.
  split; [|intros ->; reflexivity].
  unfold getImageUrl. destruct p as [|c p]; [reflexivity|].
  cbn [Js.truthy negb].
  destruct (_ || _); [discriminate|].
  destruct (Js.startsWith _ "/"); intros H;
    repeat (apply append_empty_r in H); discriminate H.
Qed.

(** ** The derived views, continued *)

Lemma filter_idempotent {A} (f : A -> bool) (l : list A) :
  List.filter f (List.filter f l) = List.filter f l.
Proof.
  rewrite filter_filter_andb. apply filter_ext. intros x. apply andb_diag.
Qed.

Lemma filterTags_refines (tags : list AdditionalTag.t) (searchTerm : string) :
  TagsPage.filterTags tags searchTerm
  = recomputeVisible (fun tag => [AdditionalTag.name tag]) (fun _ => true)
                     tags searchTerm.
Proof.
  unfold TagsPage.filterTags, recomputeVisible.
  destruct (Js.truthy searchTerm) eqn:Hterm.
  - apply filter_ext. intros tag. simpl.
    rewrite orb_false_r, andb_true_r. reflexivity.
  - apply truthy_false in Hterm. subst searchTerm.
    rewrite <- (filter_true tags) at 1. apply filter_ext. intros tag. simpl.
    rewrite includes_nil. reflexivity.
Qed.

(** X3: the three searches ignore the case of the search term: two terms
    that agree once lowered give the same visible collection. *)
Theorem search_term_case_ignored (term1 term2 : string) :
  Js.toLowerCase term1 = Js.toLowerCase term2 ->
  (forall games selectedMainTag,
      GamesPage.filterGames games term1 selectedMainTag
      = GamesPage.filterGames games term2 selectedMainTag)
  /\ (forall users filterSubscription,
         UsersPage.filterUsers users term1 filterSubscription
         = UsersPage.filterUsers users term2 filterSubscription)
  /\ (forall tags, TagsPage.filterTags tags term1 = TagsPage.filterTags tags term2).
Proof.
  intros Hlow. repeat split; intros.
  - rewrite !filterGames_refines. unfold recomputeVisible. rewrite Hlow. reflexivity.
  - rewrite !filterUsers_refines. unfold recomputeVisible. rewrite Hlow. reflexivity.
  - rewrite !filterTags_refines. unfold recomputeVisible. rewrite Hlow. reflexivity.
Qed.

Lemma search_term_case_ignored_witness :
  GamesPage.filterGames [sparse_game] "CheSS" GamesPage.all
  = GamesPage.filterGames [sparse_game] "chess" GamesPage.all.
Proof.
  apply (proj1 (search_term_case_ignored "CheSS" "chess" eq_refl)).
Defined.

(** X4: filtering the games is idempotent, and the two criteria can be
    applied one after the other in either order: searching within the
    games of a category, or selecting the category among the games found,
    gives what the two criteria give together. *)
Theorem filterGames_composes (games : list Game.t) (searchTerm : string)
        (selectedMainTag : GamesPage.SelectedMainTag) :
  GamesPage.filterGames (GamesPage.filterGames games searchTerm selectedMainTag)
                        searchTerm selectedMainTag
  = GamesPage.filterGames games searchTerm selectedMainTag
  /\ GamesPage.filterGames (GamesPage.filterGames games searchTerm GamesPage.all)
                           "" selectedMainTag
     = GamesPage.filterGames games searchTerm selectedMainTag
  /\ GamesPage.filterGames (GamesPage.filterGames games "" selectedMainTag)
                           searchTerm GamesPage.all
     = GamesPage.filterGames games searchTerm selectedMainTag.
Proof.
  rewrite !filterGames_refines. unfold recomputeVisible.
  split; [apply filter_idempotent|].
  rewrite !filter_filter_andb.
  split; apply filter_ext; intros game; cbn [gameInCategory existsb gameTextFields];
    rewrite ?includes_nil, ?andb_true_r; cbn [orb andb];
    [reflexivity|apply andb_comm].
Qed.

(** X5: the tags shown are exactly the tags whose name contains the search
    term, case being ignored, in the order of the tag collection; the empty
    term shows them all. *)
Theorem filterTags_exact_in_order (tags : list AdditionalTag.t) (searchTerm : string) :
  sublist (TagsPage.filterTags tags searchTerm) tags
  /\ (forall tag,
         In tag (TagsPage.filterTags tags searchTerm)
         <-> In tag tags /\ ci_substring (AdditionalTag.name tag) searchTerm)
  /\ TagsPage.filterTags tags "" = tags.
Proof.
  split; [rewrite filterTags_refines; apply filter_sublist|].
  split; [|reflexivity].
  intros tag. rewrite filterTags_refines, recomputeVisible_In.
  apply and_iff_compat_l. split.
  - intros [(field & [<-|[]] & Hci) _]. exact Hci.
  - intros Hci. split; [|reflexivity]. eexists. split; [left; reflexivity|exact Hci].
Qed.

(** ** The game mutation form: selecting tags and files *)

Lemma includesTag_In (additionalTags : list TagRef) (tagId : string) :
  GameForm.includesTag additionalTags tagId = true <-> In (TagId tagId) additionalTags.
Proof.
  unfold GameForm.includesTag. rewrite existsb_exists. split.
  - intros (id & Hin & Hid). destruct id as [| |s|t]; try discriminate Hid.
    apply String.eqb_eq in Hid. subst s. exact Hin.
  - intros Hin. exists (TagId tagId). split; [exact Hin|apply String.eqb_refl].
Qed.

Lemma includesTag_app (l1 l2 : list TagRef) (tagId : string) :
  GameForm.includesTag (l1 ++ l2) tagId
  = GameForm.includesTag l1 tagId || GameForm.includesTag l2 tagId.
Proof. apply existsb_app. Qed.

Lemma includesTag_filter_isNot (l : list TagRef) (tagId other : string) :
  GameForm.includesTag (List.filter (GameForm.isNot tagId) l) other
  = GameForm.includesTag l other && negb (String.eqb other tagId).
Proof.
  induction l as [|id l IH]; [reflexivity|].
  destruct id as [| |s|t]; simpl; try exact IH.
  destruct (String.eqb s tagId) eqn:Es; simpl.
  - rewrite IH. apply String.eqb_eq in Es. subst s.
    destruct (String.eqb tagId other) eqn:Eo; [|reflexivity].
    apply String.eqb_eq in Eo. subst other.
    rewrite String.eqb_refl, andb_false_r. reflexivity.
  - rewrite IH. destruct (String.eqb s other) eqn:Eo; [|reflexivity].
    apply String.eqb_eq in Eo. subst other. rewrite Es. reflexivity.
Qed.

Lemma filter_isNot_absent (l : list TagRef) (tagId : string) :
  GameForm.includesTag l tagId = false -> List.filter (GameForm.isNot tagId) l = l.
Proof.
  induction l as [|id l IH]; [reflexivity|].
  destruct id as [| |s|t]; simpl; intros H; try (f_equal; apply IH; exact H).
  apply orb_false_iff in H as [Hs Hl]. rewrite Hs. simpl. f_equal. apply IH, Hl.
Qed.

(** X6: toggling a tag flips whether its id is selected and changes that of
    no other id; toggling a tag that was not selected twice gives back the
    state of the form. *)
Theorem handleTagToggle_flips (tagId : string) (st : GameForm.State) :
  let st' := fst (GameForm.handleTagToggle tagId st) in
  GameForm.includesTag (FormData.additionalTags (GameForm.formData st')) tagId
  = negb (GameForm.includesTag (FormData.additionalTags (GameForm.formData st)) tagId)
  /\ (forall other,
         other <> tagId ->
         GameForm.includesTag (FormData.additionalTags (GameForm.formData st')) other
         = GameForm.includesTag (FormData.additionalTags (GameForm.formData st)) other)
  /\ (GameForm.includesTag (FormData.additionalTags (GameForm.formData st)) tagId = false ->
      fst (GameForm.handleTagToggle tagId st') = st).
Proof.
  destruct st as [[ti de pa im mt tags yl gi] av lo up er sf pv].
  unfold GameForm.handleTagToggle, GameForm.setFormData, GameForm.withAdditionalTags.
  cbn -[GameForm.includesTag GameForm.isNot List.filter List.find app].
  destruct (GameForm.includesTag tags tagId) eqn:Hsel.
  - split; [|split].
    + rewrite includesTag_filter_isNot, String.eqb_refl, andb_false_r. reflexivity.
    + intros other Hne. rewrite includesTag_filter_isNot.
      destruct (String.eqb other tagId) eqn:E; [|apply andb_true_r].
      apply String.eqb_eq in E. contradiction.
    + discriminate.
  - split; [|split].
    + rewrite includesTag_app, Hsel. simpl. rewrite String.eqb_refl. reflexivity.
    + intros other Hne. rewrite includesTag_app. simpl.
      destruct (String.eqb tagId other) eqn:E; [|rewrite !orb_false_r; reflexivity].
      apply String.eqb_eq in E. subst other. contradiction.
    + intros _. rewrite includesTag_app, Hsel. simpl. rewrite String.eqb_refl.
      cbn [orb]. rewrite List.filter_app, (filter_isNot_absent _ _ Hsel). simpl.
      rewrite String.eqb_refl. simpl. rewrite app_nil_r. reflexivity.
Qed.

Lemma includesId_map_TagId (ids : list string) :
  List.filter (GameForm.includesId ids) (List.map TagId ids) = List.map TagId ids.
Proof.
  apply filter_same_length. f_equal.
  assert (H : forall l, incl l ids ->
                List.filter (GameForm.includesId ids) (List.map TagId l)
                = List.map TagId l).
  { induction l as [|x l IH]; intros Hincl; [reflexivity|]. simpl.
    assert (Hx : existsb (String.eqb x) ids = true).
    { apply existsb_exists. exists x. split; [apply Hincl; left; reflexivity|].
      apply String.eqb_refl. }
    rewrite Hx. f_equal. apply IH. intros y Hy. apply Hincl. right. exact Hy. }
  apply H, incl_refl.
Qed.

Lemma isAllTagsSelected_In (st : GameForm.State) :
  GameForm.isAllTagsSelected st = true
  <-> GameForm.availableTags st <> []
      /\ forall tag, In tag (GameForm.availableTags st) ->
                     In (TagId (AdditionalTag._id tag))
                        (FormData.additionalTags (GameForm.formData st)).
Proof.
  unfold GameForm.isAllTagsSelected.
  destruct (GameForm.availableTags st) as [|tag0 tags] eqn:E.
  - simpl. split; [discriminate|]. intros [H _]. contradiction.
  - cbn [List.map length Nat.eqb]. rewrite forallb_forall. split.
    + intros H. split; [discriminate|]. intros tag Hin.
      apply includesTag_In, H.
      change (In (AdditionalTag._id tag) (List.map AdditionalTag._id (tag0 :: tags))).
      apply in_map, Hin.
    + intros [_ H] id Hid.
      change (In id (List.map AdditionalTag._id (tag0 :: tags))) in Hid.
      apply in_map_iff in Hid as (tag & <- & Hin).
      apply includesTag_In, H, Hin.
Qed.

(** X7: with at least one tag loaded, the "select all" box flips: when not
    every loaded tag is selected the draft afterwards selects exactly the
    loaded tags (any other selection is dropped), the box is checked and
    not indeterminate; when every loaded tag is selected the draft
    afterwards selects nothing. *)
Theorem handleSelectAllToggle_flips (st : GameForm.State) :
  GameForm.availableTags st <> [] ->
  let st' := GameForm.handleSelectAllToggle st in
  GameForm.isAllTagsSelected st' = negb (GameForm.isAllTagsSelected st)
  /\ GameForm.isIndeterminate st' = false
  /\ FormData.additionalTags (GameForm.formData st')
     = if GameForm.isAllTagsSelected st then []
       else List.map TagId (List.map AdditionalTag._id (GameForm.availableTags st)).
Proof.
  intros Havail st'.
  assert (Htags : FormData.additionalTags (GameForm.formData st')
                  = if GameForm.isAllTagsSelected st then []
                    else List.map TagId
                           (List.map AdditionalTag._id (GameForm.availableTags st))).
  { subst st'. unfold GameForm.handleSelectAllToggle.
    destruct st as [[] ? ? ? ? ? ?]. reflexivity. }
  assert (Hav : GameForm.availableTags st' = GameForm.availableTags st).
  { subst st'. destruct st as [[] ? ? ? ? ? ?]. reflexivity. }
  split; [|split; [|exact Htags]].
  - destruct (GameForm.isAllTagsSelected st) eqn:Hall; cbn [negb].
    + destruct (GameForm.isAllTagsSelected st') eqn:Hall'; [|reflexivity].
      apply isAllTagsSelected_In in Hall' as [_ Hin].
      rewrite Hav, Htags in Hin.
      destruct (GameForm.availableTags st) as [|tag0 tags]; [contradiction|].
      destruct (Hin tag0 (or_introl eq_refl)).
    + apply isAllTagsSelected_In. rewrite Hav, Htags. split; [exact Havail|].
      intros tag Hin. apply in_map, in_map, Hin.
  - unfold GameForm.isIndeterminate. rewrite Hav, Htags.
    destruct (length (List.map AdditionalTag._id (GameForm.availableTags st)) =? 0);
      [reflexivity|].
    destruct (GameForm.isAllTagsSelected st).
    + reflexivity.
    + rewrite includesId_map_TagId, length_map, Nat.ltb_irrefl. apply andb_false_r.
Qed.

Lemma handleSelectAllToggle_flips_witness :
  FormData.additionalTags
    (GameForm.formData (GameForm.handleSelectAllToggle stale_state))
  = [].
Proof.
  destruct (handleSelectAllToggle_flips stale_state) as (_ & _ & H).
  - discriminate.
  - rewrite H. reflexivity.
Defined.

(** X8: when the loaded tags have distinct ids, the "select all" box is
    never checked and indeterminate at once. *)
Theorem checked_excludes_indeterminate (st : GameForm.State) :
  List.NoDup (List.map AdditionalTag._id (GameForm.availableTags st)) ->
  GameForm.isAllTagsSelected st = true ->
  GameForm.isIndeterminate st = false.
Proof.
  intros Hnodup Hall. apply isAllTagsSelected_In in Hall as [Havail Hin].
  unfold GameForm.isIndeterminate.
  set (ids := List.map AdditionalTag._id (GameForm.availableTags st)) in *.
  destruct (length ids =? 0); [reflexivity|].
  assert (Hle : length ids
                <= length (List.filter (GameForm.includesId ids)
                             (FormData.additionalTags (GameForm.formData st)))).
  { rewrite <- (length_map TagId ids). apply NoDup_incl_length.
    - apply NoDup_map_NoDup_ForallPairs; [|exact Hnodup].
      intros x y _ _ [= ->]. reflexivity.
    - intros id Hid. apply in_map_iff in Hid as (s & <- & Hs).
      apply filter_In. split.
      + subst ids. apply in_map_iff in Hs as (tag & <- & Htag). apply Hin, Htag.
      + apply includesId_true. exists s. split; [reflexivity|exact Hs]. }
  apply Nat.ltb_ge in Hle. rewrite Hle. apply andb_false_r.
Qed.

Lemma checked_excludes_indeterminate_witness :
  GameForm.isIndeterminate stale_state = false.
Proof.
  apply (checked_excludes_indeterminate stale_state).
  - repeat constructor. intros [].
  - reflexivity.
Defined.

(** With two loaded tags of the same id, the box is checked and
    indeterminate at once. *)
Example checked_and_indeterminate_on_duplicate_ids :
  let st := GameForm.mkState stale_draft [rpg; rpg] false false "" None "" in
  GameForm.isAllTagsSelected st = true /\ GameForm.isIndeterminate st = true.
Proof. split; reflexivity. Qed.

(** X9: a selected file is taken, with its preview address and with the
    error cleared, exactly when its type starts with [image/] and its size
    is at most 5242880 bytes (the bound is included); a file that is not
    taken leaves the selection and the preview as they were and sets an
    error; the draft itself is never touched. *)
Theorem handleFileSelect_accepts (f : File.t) (objectUrl : string) (st : GameForm.State) :
  let st' := fst (GameForm.handleFileSelect (Some f) objectUrl st) in
  let acceptable :=
    Js.startsWith (File.type f) "image/" = true
    /\ (N.of_nat (File.size f) <= 5242880)%N in
  GameForm.formData st' = GameForm.formData st
  /\ (acceptable ->
      GameForm.selectedFile st' = Some f
      /\ GameForm.previewUrl st' = objectUrl
      /\ GameForm.error st' = "")
  /\ (~ acceptable ->
      GameForm.selectedFile st' = GameForm.selectedFile st
      /\ GameForm.previewUrl st' = GameForm.previewUrl st
      /\ GameForm.error st' <> "").
Proof.
  cbv zeta. unfold GameForm.handleFileSelect.
  change GameForm.maxFileSize with 5242880%N.
  destruct (Js.startsWith (File.type f) "image/") eqn:Htype; cbn [negb].
  - destruct (5242880 <? N.of_nat (File.size f))%N eqn:Hsize; cbn [fst].
    + apply N.ltb_lt in Hsize. split; [reflexivity|]. split.
      * intros [_ Hle]. lia.
      * intros _. repeat split; try reflexivity. discriminate.
    + apply N.ltb_ge in Hsize. split; [reflexivity|]. split.
      * intros _. repeat split; reflexivity.
      * intros Hno. exfalso. apply Hno. split; [reflexivity|exact Hsize].
  - cbn [fst]. split; [reflexivity|]. split.
    + intros [Hty _]. discriminate Hty.
    + intros _. repeat split; try reflexivity. discriminate.
Qed.

Lemma handleFileSelect_accepts_witness :
  GameForm.selectedFile
    (fst (GameForm.handleFileSelect (Some png) "blob:1" stale_state)) = Some png.
Proof.
  apply (handleFileSelect_accepts png "blob:1" stale_state).
  split; [reflexivity|]. vm_compute. discriminate.
Defined.

(** ** The game mutation form: opening and submitting *)

Ltac submit_cases game st w :=
  unfold outcome_of, world_of; unfold_submit;
  destruct (GameForm.selectedFile st) as [file|];
  [destruct (backend_reply (PostUploadPicture file) (ApiClient.authorization w)
               (server w)) as [[[[|] [[|c url]|]]|status] s1]; simpl;
   try (destruct game as [g|]; simpl; split_on_reply; simpl)
  |destruct game as [g|]; simpl; split_on_reply; simpl].

Section FormMore.
Context {backend : Backend}.

(** X10: [handleSubmit] never throws and always ends by clearing the
    loading flag; it issues at most one upload and at most one create or
    update, whatever the backend answers: nothing is retried. *)
Theorem handleSubmit_settles (game : option Game.t) (st : GameForm.State) (w : World) :
  let res := GameForm.handleSubmit game st w in
  outcome_of res = Resolved tt
  /\ last (trace_of res) = Some (Effect (setLoading false))
  /\ length (omap game_payload (omap sent_request (trace_of res))) <= 1
  /\ length (omap sent_request (trace_of res))
     <= length (omap game_payload (omap sent_request (trace_of res)))
        + match GameForm.selectedFile st with Some _ => 1 | None => 0 end.
Proof.
  cbv zeta. submit_cases game st w; repeat split; simpl; lia.
Qed.

(** X11: the form is closed, and the list asked to reload, exactly when the
    create or update was answered with success; in every other case the
    error message of the form is set and the form stays open. *)
Theorem handleSubmit_closes_on_success (game : option Game.t) (st : GameForm.State)
        (w : World) :
  let trace := trace_of (GameForm.handleSubmit game st w) in
  let saved := existsb mutation_resolved trace in
  (In onClose (omap ui_call trace) <-> saved = true)
  /\ (In onSave (omap ui_call trace) <-> saved = true)
  /\ (In (setError "Failed to save game. Please try again.") (omap ui_call trace)
      <-> saved = false).
Proof.
  cbv zeta. submit_cases game st w; simpl;
    intuition (try discriminate; try congruence).
Qed.

Lemma filter_notNullish_tagIdOf (tags : list TagRef) :
  List.filter notNullish (List.map GameForm.tagIdOf (List.filter notNullish tags))
  = List.map GameForm.tagIdOf (List.filter notNullish tags).
Proof.
  induction tags as [|tag tags IH]; [reflexivity|].
  destruct tag as [| |s|t]; simpl; try exact IH.
  - f_equal. exact IH.
  - destruct (Js.truthy (AdditionalTag._id t)); simpl; f_equal; exact IH.
Qed.

(** X12: submitting a game right after its edit form was opened sends no
    upload and exactly one update, whose body is the draft as it was
    opened: the tags of the game with [null] and [undefined] removed and
    the tag objects replaced by their ids, and the stored image path of
    the game, not the resolved address shown as its preview. *)
Theorem submit_unchanged_edit (env : option string) (g : Game.t)
        (st st' : GameForm.State) (w : World) :
  GameForm.openEffect env true (Some g) st = Some st' ->
  omap sent_request (trace_of (GameForm.handleSubmit (Some g) st' w))
  = [PutGame (Js.or_else (Game.id g) (Some (Game._id g))) (GameForm.formData st')]
  /\ FormData.imageUrl (GameForm.formData st') = Game.imageUrl g
  /\ GameForm.previewUrl st' = getImageUrl env (Game.imageUrl g)
  /\ FormData.additionalTags (GameForm.formData st')
     = List.map GameForm.tagIdOf
         (List.filter notNullish (orEmpty (Game.additionalTags g))).
Proof.
  unfold GameForm.openEffect. destruct (Game.additionalTags g) as [tags|]; [|discriminate].
  intros [= <-]. split; [|repeat split].
  unfold_submit. cbn [GameForm.selectedFile GameForm.formData]. simpl.
  split_on_reply; simpl; rewrite filter_notNullish_tagIdOf; reflexivity.
Qed.

End FormMore.

Lemma submit_unchanged_edit_witness :
  omap sent_request
       (trace_of (GameForm.handleSubmit (backend := accepting_backend)
                    (Some sparse_game)
                    (GameForm.mkState
                       (FormData.mk "Chess" "A board game" "/games/chess" "old.png"
                                    MainTag.Game [TagId "t1"] "" [])
                       [rpg] false false "" None
                       (getImageUrl None "old.png"))
                    on_accepting))
  = [PutGame (Some "g1")
             (FormData.mk "Chess" "A board game" "/games/chess" "old.png"
                          MainTag.Game [TagId "t1"] "" [])].
Proof.
  exact (proj1 (submit_unchanged_edit (backend := accepting_backend) None
                  sparse_game stale_state
                  (GameForm.mkState
                     (FormData.mk "Chess" "A board game" "/games/chess" "old.png"
                                  MainTag.Game [TagId "t1"] "" [])
                     [rpg] false false "" None
                     (getImageUrl None "old.png"))
                  on_accepting eq_refl)).
Defined.

Lemma pruneTagsEffect_create (st : GameForm.State) :
  GameForm.availableTags st <> [] ->
  GameForm.pruneTagsEffect None st
  = GameForm.setFormData st
      (fun prev => GameForm.withAdditionalTags prev
         (List.filter
            (GameForm.includesId
               (List.map AdditionalTag._id (GameForm.availableTags st)))
            (FormData.additionalTags (GameForm.formData st)))).
Proof.
  intros Havail. unfold GameForm.pruneTagsEffect.
  set (validTagIds := List.map AdditionalTag._id (GameForm.availableTags st)).
  set (selected := FormData.additionalTags (GameForm.formData st)).
  destruct (length (List.filter (GameForm.includesId validTagIds) selected)
            =? length selected) eqn:Elen.
  - apply Nat.eqb_eq, filter_same_length in Elen. rewrite Elen.
    subst selected. rewrite setFormData_same.
    destruct (_ && _); reflexivity.
  - destruct (GameForm.availableTags st) as [|tag0 tags]; [contradiction|].
    destruct selected as [|id0 ids]; [discriminate Elen|]. reflexivity.
Qed.

(** X13: the pruning effect is idempotent: run again on its own result,
    with the same tags loaded, it changes nothing. *)
Theorem pruneTagsEffect_idempotent (game : option Game.t) (st : GameForm.State) :
  GameForm.pruneTagsEffect game (GameForm.pruneTagsEffect game st)
  = GameForm.pruneTagsEffect game st.
Proof.
  destruct game as [g|].
  - assert (Hedit : forall st0, GameForm.pruneTagsEffect (Some g) st0 = st0).
    { intros st0. unfold GameForm.pruneTagsEffect. destruct (_ && _); reflexivity. }
    rewrite !Hedit. reflexivity.
  - destruct (GameForm.availableTags st) as [|tag0 tags] eqn:Eav.
    + unfold GameForm.pruneTagsEffect. rewrite Eav. cbn.
      rewrite Eav. reflexivity.
    + assert (Hne : GameForm.availableTags st <> []) by (rewrite Eav; discriminate).
      rewrite (pruneTagsEffect_create st Hne).
      rewrite pruneTagsEffect_create.
      * destruct st as [[] ? ? ? ? ? ?]. cbn. rewrite filter_idempotent. reflexivity.
      * destruct st as [[] ? ? ? ? ? ?]. exact Hne.
Qed.

(** ** The axios wrapper and the session store, continued *)

Section Session.
Context {backend : Backend}.

(** X14: a response that is not a 401, be it a success, another error
    status or no response at all, leaves the persisted token and the
    location of the browser as they were, for the bare axios call and for
    the [ApiClient] method that issues it. *)
Theorem non_401_keeps_session (r : request) (w : World) :
  fst (backend_reply r (ApiClient.authorization w) (server w)) <> Err (Some 401) ->
  cookies (world_of (ApiClient.client r w)) = cookies w
  /\ location_href (world_of (ApiClient.client r w)) = location_href w
  /\ cookies (world_of (ApiClient.operation r w)) = cookies w
  /\ location_href (world_of (ApiClient.operation r w)) = location_href w.
Proof.
  intros Hrep.
  assert (Hclient : exists o w' t,
             ApiClient.client r w = (o, w', t)
             /\ cookies w' = cookies w /\ location_href w' = location_href w).
  { unfold ApiClient.client.
    destruct (backend_reply r (ApiClient.authorization w) (server w))
      as [[data|status] s']; cbn [fst] in Hrep.
    - eexists _, _, _. split; [reflexivity|]. split; reflexivity.
    - eexists _, _, _. split; [reflexivity|].
      unfold ApiClient.on_response_error.
      destruct (decide (status = Some 401)) as [->|_]; [contradiction|].
      split; reflexivity. }
  destruct Hclient as (o & w' & t & Hc & Hcookies & Hhref).
  split; [rewrite Hc; exact Hcookies|]. split; [rewrite Hc; exact Hhref|].
  assert (Hop : world_of (ApiClient.operation r w) = w').
  { destruct r; cbn [ApiClient.operation];
      unfold ApiClient.login_attempt, ApiClient.getGames, ApiClient.createGame,
        ApiClient.updateGame, ApiClient.getAdditionalTags,
        ApiClient.createAdditionalTag, ApiClient.deleteAdditionalTag,
        ApiClient.getUsers, ApiClient.setSubscription, ApiClient.uploadImage,
        bind, try_catch, emit, ret, world_of;
      rewrite Hc; destruct o as [a|e]; try reflexivity;
      try (destruct a; reflexivity). }
  rewrite Hop. split; assumption.
Qed.

(** X15: [login] of the session store never throws; it answers [true]
    exactly when one of the login routes answered with a [success] flag or
    a non-empty [token]; after [true] exactly one cookie is written,
    [admin_token], and its value is the token that the route returned when
    that token is not empty and ["authenticated"] when the route returned
    none or an empty one, so that the store mounts authenticated and the
    next request carries that value as its bearer header; after [false]
    nothing is written. *)
Theorem provider_login_persists_token (username password : string) (w : World) :
  let api := ApiClient.login username password w in
  let res := AuthContext.login username password w in
  exists answer,
    outcome_of res = Resolved answer
    /\ (answer = true
        <-> exists data,
            outcome_of api = Resolved data
            /\ login_success data || Js.truthy_opt (login_token data) = true)
    /\ (answer = true ->
        exists data token,
          outcome_of api = Resolved data
          /\ (forall returned, login_token data = Some returned ->
                               returned <> "" -> token = returned)
          /\ (login_token data = None \/ login_token data = Some "" ->
              token = "authenticated")
          /\ token <> ""
          /\ cookies (world_of res) = <["admin_token" := token]> (cookies (world_of api))
          /\ location_href (world_of res) = location_href (world_of api)
          /\ server (world_of res) = server (world_of api)
          /\ cookies (world_of res) !! "admin_token" = Some token
          /\ AuthContext.isAuthenticated_on_mount (world_of res) = true
          /\ ApiClient.authorization (world_of res) = Some ("Bearer " +:+ token))
    /\ (answer = false -> world_of res = world_of api).
Proof.
  cbv zeta. unfold AuthContext.login, AuthContext.Cookies_set, try_catch, bind, emit, ret,
    outcome_of, world_of.
  destruct (ApiClient.login username password w) as [[[data|e] w1] t1]; cbn [fst snd].
  - destruct data as [success token]. cbn [login_success login_token].
    destruct (success || Js.truthy_opt token) eqn:Hok.
    + exists true. split; [reflexivity|]. split; [|split; [|discriminate]].
      * split; [|reflexivity]. intros _. eexists. split; [reflexivity|exact Hok].
      * intros _. exists {| login_success := success; login_token := token |}.
        assert (Htoken : exists tok,
                   default "authenticated" (Js.or_else token (Some "authenticated"))
                   = tok
                   /\ tok <> ""
                   /\ (forall returned, token = Some returned ->
                                        returned <> "" -> tok = returned)
                   /\ (token = None \/ token = Some "" -> tok = "authenticated")).
        { destruct token as [[|c tok]|]; eexists; (split; [reflexivity|]);
            (split; [discriminate|]); split.
          - intros returned [= <-] Hne. contradiction.
          - intros _. reflexivity.
          - intros returned [= <-] _. reflexivity.
          - intros [Hnone|Hempty]; discriminate.
          - intros returned Hsome. discriminate Hsome.
          - intros _. reflexivity. }
        destruct Htoken as (tok & -> & Hne & Hreturned & Hfallback). exists tok.
        unfold AuthContext.isAuthenticated_on_mount, ApiClient.authorization.
        cbn [fst snd cookies location_href server login_token].
        rewrite lookup_insert_eq.
        split; [reflexivity|]. split; [exact Hreturned|].
        split; [exact Hfallback|]. split; [exact Hne|].
        destruct tok as [|c tok]; [contradiction|]. repeat split; reflexivity.
    + exists false. split; [reflexivity|]. split; [|split; [discriminate|reflexivity]].
      split; [discriminate|]. intros (data & [= <-] & Hdata).
      cbn [login_success login_token] in Hdata. congruence.
  - exists false. split; [reflexivity|]. split; [|split; [discriminate|reflexivity]].
    split; [discriminate|]. intros (data & Hdata & _). discriminate Hdata.
Qed.

End Session.

Lemma non_401_keeps_session_witness :
  cookies (world_of (ApiClient.client (backend := accepting_backend) GetUsers
                       on_accepting))
  = cookies on_accepting.
Proof.
  apply (non_401_keeps_session (backend := accepting_backend) GetUsers on_accepting).
  discriminate.
Defined.

(** ** The list controllers: reloading and mutating *)

Ltac split_on_list :=
  lazymatch goal with
  | |- context [match ?d with Bare _ => _ | Envelope _ _ => _ end] =>
      is_var d; destruct d
  end.

Ltac crunch := repeat (simpl; first [split_on_reply|split_on_list]).

Ltac unfold_handlers :=
  unfold GamesPage.fetchData, TagsPage.handleCreateTag, TagsPage.handleDeleteTag,
    TagsPage.fetchTags, UsersPage.handleSubscriptionToggle, UsersPage.fetchUsers,
    DashboardPage.fetchDashboardStats, DashboardPage.Promise_all3,
    call_with_extra_argument, Promise_all2,
    ApiClient.getGames, ApiClient.getAdditionalTags, ApiClient.getUsers,
    ApiClient.createAdditionalTag, ApiClient.deleteAdditionalTag,
    ApiClient.setSubscription, ApiClient.client;
  unfold bind, finally, try_catch, emit, ret, throw, trace_of, outcome_of, world_of.

Section Controllers.
Context {backend : Backend}.

(** X16: [fetchData] of the games page never throws and always ends by
    clearing the loading flag; the games and the tags are replaced exactly
    when both list requests were answered with success, and in every other
    case neither collection is touched and the failure is reported. *)
Theorem fetchData_replaces_on_success (w : World) :
  let res := GamesPage.fetchData w in
  let calls := omap ui_call (trace_of res) in
  let both :=
    existsb (request_resolved (fun r => match r with GetGames => true | _ => false end))
            (trace_of res)
    && existsb (request_resolved
                  (fun r => match r with GetAdditionalTags => true | _ => false end))
               (trace_of res) in
  outcome_of res = Resolved tt
  /\ last (trace_of res) = Some (Effect (setLoading false))
  /\ ((exists games, In (setGames games) calls) <-> both = true)
  /\ ((exists tags, In (setTags tags) calls) <-> both = true)
  /\ (In (toast_error "Failed to fetch games data") calls <-> both = false).
Proof.
  cbv zeta. unfold_handlers. crunch.
  all: repeat split; try reflexivity; try discriminate;
    try (intros (x & Hx); simpl in Hx; intuition discriminate);
    try (intros _; eexists; simpl; eauto 6);
    simpl; intuition discriminate.
Qed.

(** X17: [handleCreateTag] never throws; a name that is blank once trimmed
    sends nothing at all; any other name is posted trimmed, once, and the
    tags are fetched again exactly when that request succeeded. *)
Theorem handleCreateTag_requests (newTagName newTagBelongsTo : string) (w : World) :
  let res := TagsPage.handleCreateTag newTagName newTagBelongsTo w in
  let name := Js.trim newTagName in
  outcome_of res = Resolved tt
  /\ (name = "" -> trace_of res = [Effect preventDefault])
  /\ (name <> "" ->
      omap sent_request (trace_of res)
      = PostAdditionalTag name
          :: if resolved (fst (backend_reply (PostAdditionalTag name)
                                 (ApiClient.authorization w) (server w)))
             then [GetAdditionalTags] else []).
Proof.
  cbv zeta. unfold_handlers.
  destruct (Js.trim newTagName) as [|c name] eqn:Hname; cbn [Js.truthy negb].
  - repeat split. intros H. contradiction.
  - crunch; repeat split; try discriminate; intros _; reflexivity.
Qed.

(** X18: without the confirmation [handleDeleteTag] does nothing; with it,
    it never throws, sends one delete request for that id, fetches the tags
    again exactly when the delete succeeded, reports the failure otherwise,
    and leaves no tag marked as being deleted. *)
Theorem handleDeleteTag_requests (confirmed : bool) (id : string)
        (deletingId : option string) (w : World) :
  let res := TagsPage.handleDeleteTag confirmed id deletingId w in
  let deleted := resolved (fst (backend_reply (DeleteAdditionalTag id)
                                  (ApiClient.authorization w) (server w))) in
  (confirmed = false -> res = (Resolved deletingId, w, []))
  /\ (confirmed = true ->
      outcome_of res = Resolved None
      /\ omap sent_request (trace_of res)
         = DeleteAdditionalTag id :: (if deleted then [GetAdditionalTags] else [])
      /\ (In (setError "Failed to delete tag. Please try again.")
             (omap ui_call (trace_of res))
          <-> deleted = false)).
Proof.
  cbv zeta. unfold_handlers. destruct confirmed; cbn [negb].
  - split; [discriminate|]. intros _.
    crunch; repeat split; try reflexivity; try discriminate;
      simpl; intuition discriminate.
  - split; [reflexivity|discriminate].
Qed.

(** X19: without the confirmation [handleDeleteGame] does nothing; with it,
    it never throws; when the delete call fails the games are not touched
    and the failure is reported; when it succeeds the games become the
    games whose [_id] is not the deleted one, in their order, which is the
    same collection when no game has that [_id]. *)
Theorem handleDeleteGame_removes (deleteGame : string -> M string)
        (confirmed : bool) (games : list Game.t) (gameId gameTitle : string)
        (w : World) :
  let res := GamesPage.handleDeleteGame deleteGame confirmed games gameId gameTitle w in
  (confirmed = false -> res = (Resolved tt, w, []))
  /\ (confirmed = true ->
      outcome_of res = Resolved tt
      /\ exists extra,
          trace_of res = trace_of (deleteGame gameId w) ++ extra
          /\ match outcome_of (deleteGame gameId w) with
             | Rejected _ =>
                 extra = [Effect (console_error "Error deleting game:");
                          Effect (toast_error "Failed to delete game")]
             | Resolved _ =>
                 exists remaining,
                   extra = [Effect (setGames remaining);
                            Effect (toast_success
                                      (GamesPage.quotedTitle gameTitle
                                       +:+ " deleted successfully!"))]
                   /\ sublist remaining games
                   /\ (forall game, In game remaining
                                    <-> In game games /\ Game._id game <> gameId)
                   /\ ((forall game, In game games -> Game._id game <> gameId)
                       -> remaining = games)
             end).
Proof.
  cbv zeta. unfold GamesPage.handleDeleteGame. destruct confirmed.
  - split; [discriminate|]. intros _.
    unfold bind, try_catch, emit, ret, outcome_of, trace_of.
    destruct (deleteGame gameId w) as [[[a|e] w1] t1]; cbn [fst snd].
    + split; [reflexivity|]. eexists. split; [reflexivity|].
      eexists. split; [reflexivity|]. split; [apply filter_sublist|]. split.
      * intros game. rewrite filter_In, negb_true_iff.
        apply and_iff_compat_l. split.
        -- intros Hneq Heq. rewrite Heq, String.eqb_refl in Hneq. discriminate.
        -- intros Hneq. destruct (String.eqb (Game._id game) gameId) eqn:E;
             [|reflexivity]. apply String.eqb_eq in E. contradiction.
      * intros Habsent. rewrite <- (filter_true games) at 2.
        apply filter_ext_in. intros game Hin. apply negb_true_iff.
        destruct (String.eqb (Game._id game) gameId) eqn:E; [|reflexivity].
        apply String.eqb_eq in E. destruct (Habsent game Hin E).
    + split; [reflexivity|]. eexists. split; reflexivity.
  - split; [reflexivity|discriminate].
Qed.

(** X20: [fetchUsers] never throws and always clears the loading flag; on
    success the users become the unwrapped answer and the error message is
    left as it was; on failure the users are left as they were and the
    error message is set. *)
Theorem fetchUsers_keeps_users_on_failure (st : UsersPage.State) (w : World) :
  exists st',
    outcome_of (UsersPage.fetchUsers st w) = Resolved st'
    /\ UsersPage.loading st' = false
    /\ UsersPage.updatingUserId st' = UsersPage.updatingUserId st
    /\ match fst (backend_reply GetUsers (ApiClient.authorization w) (server w)) with
       | Ok (Bare items) =>
           UsersPage.users st' = List.map ApiClient.withUserId items
           /\ UsersPage.error st' = UsersPage.error st
       | Ok (Envelope _ data) =>
           UsersPage.users st' = orEmpty data
           /\ UsersPage.error st' = UsersPage.error st
       | Err _ =>
           UsersPage.users st' = UsersPage.users st
           /\ UsersPage.error st' = "Failed to fetch users"
       end.
Proof.
  unfold_handlers. crunch; eexists; repeat split.
Qed.

(** X21: [handleSubscriptionToggle] never throws and leaves no user marked
    as being updated; it sends the negated flag for that user, once, and
    fetches the users again exactly when that request succeeded; when it
    failed the users are left as they were and the failure is reported. *)
Theorem handleSubscriptionToggle_requests (userId : string) (currentStatus : bool)
        (st : UsersPage.State) (w : World) :
  let res := UsersPage.handleSubscriptionToggle userId currentStatus st w in
  let updated := resolved (fst (backend_reply
                                  (PutSetSubscription userId (negb currentStatus))
                                  (ApiClient.authorization w) (server w))) in
  exists st',
    outcome_of res = Resolved st'
    /\ UsersPage.updatingUserId st' = None
    /\ omap sent_request (trace_of res)
       = PutSetSubscription userId (negb currentStatus)
           :: (if updated then [GetUsers] else [])
    /\ (updated = false ->
        UsersPage.users st' = UsersPage.users st
        /\ UsersPage.error st' = "Failed to update subscription. Please try again.").
Proof.
  cbv zeta. unfold_handlers. crunch; eexists; repeat split; try discriminate.
Qed.

(** X22: [fetchDashboardStats] never throws and always clears the loading
    flag; the three list requests are all issued, whatever the others
    answer; when the three succeed the counter of subscribed users does not
    exceed the counter of users; when one of them fails the counters are
    left as they were. *)
Theorem fetchDashboardStats_counts (st : DashboardPage.State) (w : World) :
  let res := DashboardPage.fetchDashboardStats st w in
  let all3 :=
    forallb (fun is_r => existsb (request_resolved is_r) (trace_of res))
            [(fun r => match r with GetGames => true | _ => false end);
             (fun r => match r with GetAdditionalTags => true | _ => false end);
             (fun r => match r with GetUsers => true | _ => false end)] in
  exists st',
    outcome_of res = Resolved st'
    /\ DashboardPage.loading st' = false
    /\ omap sent_request (trace_of res) = [GetGames; GetAdditionalTags; GetUsers]
    /\ (all3 = false -> DashboardPage.stats st' = DashboardPage.stats st)
    /\ (all3 = true ->
        DashboardPage.subscribedUsers (DashboardPage.stats st')
        <= DashboardPage.totalUsers (DashboardPage.stats st')).
Proof.
  cbv zeta. unfold_handlers. crunch; eexists; repeat split; try discriminate;
    intros _; cbn [DashboardPage.stats DashboardPage.subscribedUsers
                   DashboardPage.totalUsers]; apply filter_length_le.
Qed.

End Controllers.

Lemma handleCreateTag_requests_witness :
  omap sent_request
       (trace_of (TagsPage.handleCreateTag (backend := accepting_backend)
                    " RPG " "Game" on_accepting))
  = [PostAdditionalTag "RPG"; GetAdditionalTags].
Proof.
  apply (handleCreateTag_requests (backend := accepting_backend)
           " RPG " "Game" on_accepting).
  discriminate.
Defined.

Lemma handleDeleteTag_requests_witness :
  omap sent_request
       (trace_of (TagsPage.handleDeleteTag (backend := unauthorized_backend)
                    true "t1" None on_unauthorized))
  = [DeleteAdditionalTag "t1"].
Proof.
  apply (handleDeleteTag_requests (backend := unauthorized_backend)
           true "t1" None on_unauthorized).
  reflexivity.
Defined.

Lemma handleDeleteGame_removes_witness :
  outcome_of (GamesPage.handleDeleteGame (backend := accepting_backend)
                (fun id => ApiClient.deleteAdditionalTag id)
                true [sparse_game] "g1" "Chess" on_accepting)
  = Resolved tt.
Proof.
  apply (handleDeleteGame_removes (backend := accepting_backend)
           (fun id => ApiClient.deleteAdditionalTag id)
           true [sparse_game] "g1" "Chess" on_accepting).
  reflexivity.
Defined.

(** ** The tags page: grouping the visible tags *)

Lemma groupStep_lookup (groups : gmap string (list AdditionalTag.t))
      (tag : AdditionalTag.t) :
  ~ In (TagsPage.groupKey tag) TagsPage.inherited_names ->
  exists groups',
    TagsPage.groupStep (Some groups) tag = Some groups'
    /\ forall k,
        groups' !! k
        = if String.eqb (TagsPage.groupKey tag) k
          then Some (default [] (groups !! k) ++ [tag])
          else groups !! k.
Proof.
  intros Hown. unfold TagsPage.groupStep.
  destruct (existsb (String.eqb (TagsPage.groupKey tag)) TagsPage.inherited_names)
    eqn:Einh.
  { exfalso. apply Hown. apply existsb_exists in Einh as (x & Hx & Heq).
    apply String.eqb_eq in Heq. subst x. exact Hx. }
  eexists. split; [reflexivity|]. intros k.
  destruct (String.eqb (TagsPage.groupKey tag) k) eqn:Ek.
  - apply String.eqb_eq in Ek. subst k. rewrite lookup_insert_eq.
    destruct (groups !! TagsPage.groupKey tag) eqn:Eg; [rewrite Eg; reflexivity|].
    rewrite lookup_insert_eq. reflexivity.
  - assert (Hne : TagsPage.groupKey tag <> k).
    { intros Heq. rewrite Heq, String.eqb_refl in Ek. discriminate. }
    rewrite lookup_insert_ne by exact Hne.
    destruct (groups !! TagsPage.groupKey tag); [reflexivity|].
    rewrite lookup_insert_ne by exact Hne. reflexivity.
Qed.

Lemma groupTags_from (tags : list AdditionalTag.t)
      (groups : gmap string (list AdditionalTag.t)) :
  (forall tag, In tag tags -> ~ In (TagsPage.groupKey tag) TagsPage.inherited_names) ->
  exists groups',
    fold_left TagsPage.groupStep tags (Some groups) = Some groups'
    /\ forall k,
        groups' !! k
        = match List.filter (fun tag => String.eqb (TagsPage.groupKey tag) k) tags with
          | [] => groups !! k
          | members => Some (default [] (groups !! k) ++ members)
          end.
Proof.
  revert groups. induction tags as [|tag tags IH]; intros groups Hown.
  - exists groups. split; reflexivity.
  - destruct (groupStep_lookup groups tag (Hown tag (or_introl eq_refl)))
      as (groups1 & Hstep & Hlook1).
    destruct (IH groups1 (fun t Ht => Hown t (or_intror Ht)))
      as (groups' & Hfold & Hlook).
    exists groups'. cbn [fold_left]. rewrite Hstep. split; [exact Hfold|].
    intros k. rewrite Hlook, Hlook1. cbn [List.filter].
    destruct (String.eqb (TagsPage.groupKey tag) k).
    + destruct (List.filter _ tags); [reflexivity|].
      unfold default. cbn [from_option id]. rewrite <- app_assoc. reflexivity.
    + reflexivity.
Qed.

Lemma groupTags_stuck (tags : list AdditionalTag.t) :
  fold_left TagsPage.groupStep tags None = None.
Proof. induction tags as [|tag tags IH]; [reflexivity|exact IH]. Qed.

(** X23: when no visible tag has a classifier that is a property name
    inherited from [Object.prototype], the grouping has one group for each
    classifier that occurs ([Unknown] for an absent or empty one), holding
    the tags of that classifier in their order, so that the count shown in
    a group header is the number of these tags; when a tag has such a
    classifier the grouping throws. *)
Theorem groupTags_by_classifier (filteredTags : list AdditionalTag.t) :
  ((forall tag, In tag filteredTags ->
                ~ In (TagsPage.groupKey tag) TagsPage.inherited_names) ->
   exists groups,
     TagsPage.groupTags filteredTags = Some groups
     /\ forall k,
         groups !! k
         = match List.filter (fun tag => String.eqb (TagsPage.groupKey tag) k)
                             filteredTags with
           | [] => None
           | members => Some members
           end)
  /\ ((exists tag, In tag filteredTags
                   /\ In (TagsPage.groupKey tag) TagsPage.inherited_names) ->
      TagsPage.groupTags filteredTags = None).
Proof.
  split.
  - intros Hown. destruct (groupTags_from filteredTags ∅ Hown) as (groups & Hfold & Hlook).
    exists groups. split; [exact Hfold|]. intros k. rewrite Hlook, lookup_empty.
    reflexivity.
  - unfold TagsPage.groupTags. generalize (∅ : gmap string (list AdditionalTag.t)).
    induction filteredTags as [|tag tags IH]; intros groups (bad & Hin & Hbad).
    + destruct Hin.
    + cbn [fold_left].
      destruct (TagsPage.groupStep (Some groups) tag) as [groups1|] eqn:Hstep;
        [|apply groupTags_stuck].
      apply IH. exists bad. split; [|exact Hbad].
      destruct Hin as [->|Hin]; [|exact Hin]. exfalso.
      unfold TagsPage.groupStep in Hstep.
      destruct (existsb (String.eqb (TagsPage.groupKey bad)) TagsPage.inherited_names)
        eqn:Einh; [discriminate Hstep|].
      assert (Htrue : existsb (String.eqb (TagsPage.groupKey bad))
                              TagsPage.inherited_names = true).
      { apply existsb_exists. exists (TagsPage.groupKey bad).
        split; [exact Hbad|apply String.eqb_refl]. }
      congruence.
Qed.

Lemma groupTags_by_classifier_witness :
  exists groups,
    TagsPage.groupTags [rpg] = Some groups
    /\ forall k,
        groups !! k
        = match List.filter (fun tag => String.eqb (TagsPage.groupKey tag) k) [rpg] with
          | [] => None
          | members => Some members
          end.
Proof.
  apply (proj1 (groupTags_by_classifier [rpg])).
  intros tag [<-|[]]. vm_compute. intuition discriminate.
Defined.
